(** * ralph-tui: the session registry and the notification gateway

    A shallow embedding of the session registry (load / save, register,
    update-status, unregister, the queries and cleanup-stale) and of
    [sendNotification], with the properties the design document states
    about them.

    Modelling conventions.
    - Values read from disk are [JSON] trees, as [JSON.parse] returns them.
      An object is a finite map from property names to values: the model
      tracks own enumerable properties, which is what [JSON.stringify],
      [Object.values], [Object.entries] and [delete] observe.  The order
      of the keys is not part of a value: documents that differ in it only
      are the same document, and each object has one enumeration order.
    - Bracket access on [registry.sessions] follows the prototype chain: a
      read that finds no own property finds the property of
      [Object.prototype] of that name, if there is one, and an assignment
      to [__proto__] on an object without such an own property sets its
      prototype instead of storing anything.  Each operation starts with
      [Object.prototype] as the platform defines it: what an operation
      leaves on a built-in object is not seen by the next.
    - The text layer belongs to the platform: a file is described by what
      [access], [readFile] and [JSON.parse] make of it, and a file written
      with [JSON.stringify(v, null, 2)] is one that [JSON.parse] reads back
      as [v].
    - [writeFile] and [mkdir] succeed; every write is counted.
    - TypeScript interfaces are records.  The source casts the parsed file to
      [SessionRegistry] without a check; the typed operations go through the
      explicit view [as_SessionRegistry] at that place.
    - [async] functions run to completion, one after the other; a rejected
      promise is a thrown exception. *)

From stdpp Require Import gmap strings list fin_maps.
From Stdlib Require Import ZArith.

Set Warnings "-register-all".

(** ** JavaScript values and exceptions *)

Module JS.

Inductive JSON : Type :=
| JNull
| JBool (b : bool)
| JNumber (n : Z)
| JString (s : string)
| JArray (items : list JSON)
| JObject (props : gmap string JSON).

Inductive Exn : Type :=
| TypeError
| SyntaxError
| FsError
| IllTyped.   (* not an exception of the program: a value is used at an
                 interface it does not inhabit, and what the code does with
                 it from there on is outside the model *)

Inductive Outcome (A : Type) : Type :=
| Returns (a : A)
| Throws (e : Exn).
Arguments Returns {A} a.
Arguments Throws {A} e.

#[export] Instance outcome_ret : MRet Outcome := fun _ a => Returns a.
#[export] Instance outcome_bind : MBind Outcome := fun _ _ f m =>
  match m with
  | Returns a => f a
  | Throws e => Throws e
  end.

(** [try { body } catch { handler }] where both produce a value. *)
Definition try_catch {A} (body : Outcome A) (handler : Exn -> A) : A :=
  match body with
  | Returns a => a
  | Throws e => handler e
  end.

(** [v.name] for the property names the registry reads ([version],
    [sessions]): [None] is [undefined].  Reading a property of [null]
    throws; numbers, booleans, strings and arrays have no such property. *)
Definition member (v : JSON) (name : string) : Outcome (option JSON) :=
  match v with
  | JNull => Throws TypeError
  | JObject props => Returns (props !! name)
  | _ => Returns None
  end.

(** [typeof v]; [None] is [undefined]. *)
Definition typeof (v : option JSON) : string :=
  match v with
  | None => "undefined"
  | Some JNull => "object"
  | Some (JBool _) => "boolean"
  | Some (JNumber _) => "number"
  | Some (JString _) => "string"
  | Some (JArray _) => "object"
  | Some (JObject _) => "object"
  end.

(** [v !== 1] *)
Definition strict_ne_1 (v : option JSON) : bool :=
  match v with
  | Some (JNumber 1) => false
  | _ => true
  end.

End JS.

Import JS.

(** ** The session registry *)

Module Registry.

(** *** Data model *)

(** Modelled from the spec: [SessionStatus] is imported from [./types.js],
    which is not part of the sources at hand.  The data model lists the
    enum as running, paused, interrupted, completed, failed. *)
Inductive SessionStatus : Type :=
| running
| paused
| interrupted
| completed
| failed.

#[export] Instance SessionStatus_eq_dec : EqDecision SessionStatus.
Proof. solve_decision. Defined.

Record SessionRegistryEntry : Type := {
  sessionId : string;
  cwd : string;
  status : SessionStatus;
  startedAt : string;
  updatedAt : string;
  agentPlugin : string;
  trackerPlugin : string;
  epicId : option string;
  prdPath : option string;
  sandbox : option bool
}.

(** [version] has the literal type [1]; the encoder writes it. *)
Record SessionRegistry : Type := {
  sessions : gmap string SessionRegistryEntry
}.

(** [{ version: 1, sessions: {} }] at its declared type, and as a value. *)
Definition empty_registry : SessionRegistry := {| sessions := ∅ |}.

Definition empty_document : JSON :=
  JObject (<["version" := JNumber 1]> (<["sessions" := JObject ∅]> ∅)).

(** *** Typed values as JavaScript values, and back *)

Definition status_string (s : SessionStatus) : string :=
  match s with
  | running => "running"
  | paused => "paused"
  | interrupted => "interrupted"
  | completed => "completed"
  | failed => "failed"
  end.

(** An optional property is present exactly when it is defined. *)
Definition optional {A} (name : string) (enc : A -> JSON) (o : option A)
    (props : gmap string JSON) : gmap string JSON :=
  match o with
  | Some a => <[name := enc a]> props
  | None => props
  end.

Definition entry_props (e : SessionRegistryEntry) : gmap string JSON :=
  optional "sandbox" JBool (sandbox e)
  (optional "prdPath" JString (prdPath e)
  (optional "epicId" JString (epicId e)
  (<["trackerPlugin" := JString (trackerPlugin e)]>
  (<["agentPlugin" := JString (agentPlugin e)]>
  (<["updatedAt" := JString (updatedAt e)]>
  (<["startedAt" := JString (startedAt e)]>
  (<["status" := JString (status_string (status e))]>
  (<["cwd" := JString (cwd e)]>
  (<["sessionId" := JString (sessionId e)]> ∅))))))))).

Definition entry_to_JSON (e : SessionRegistryEntry) : JSON :=
  JObject (entry_props e).

Definition registry_to_JSON (r : SessionRegistry) : JSON :=
  JObject (<["version" := JNumber 1]>
          (<["sessions" := JObject (entry_to_JSON <$> sessions r)]> ∅)).

Definition as_string (v : JSON) : option string :=
  match v with JString s => Some s | _ => None end.

Definition as_bool (v : JSON) : option bool :=
  match v with JBool b => Some b | _ => None end.

Definition all_statuses : list SessionStatus :=
  [running; paused; interrupted; completed; failed].

(** The status a string names, if any. *)
Definition as_status (v : JSON) : option SessionStatus :=
  match v with
  | JString s =>
      List.find (fun st => String.eqb (status_string st) s) all_statuses
  | _ => None
  end.

Definition required {A} (dec : JSON -> option A) (props : gmap string JSON)
    (name : string) : option A :=
  props !! name ≫= dec.

Definition optionally {A} (dec : JSON -> option A) (props : gmap string JSON)
    (name : string) : option (option A) :=
  match props !! name with
  | None => Some None
  | Some v => Some <$> dec v
  end.

(** The view of a value at the interface [SessionRegistryEntry]: every
    declared property has its declared type and there is no other own
    property. *)
Definition as_entry (v : JSON) : option SessionRegistryEntry :=
  match v with
  | JObject props =>
      id ← required as_string props "sessionId";
      dir ← required as_string props "cwd";
      st ← required as_status props "status";
      started ← required as_string props "startedAt";
      updated ← required as_string props "updatedAt";
      agent ← required as_string props "agentPlugin";
      tracker ← required as_string props "trackerPlugin";
      epic ← optionally as_string props "epicId";
      prd ← optionally as_string props "prdPath";
      sb ← optionally as_bool props "sandbox";
      let e := {| sessionId := id; cwd := dir; status := st;
                  startedAt := started; updatedAt := updated;
                  agentPlugin := agent; trackerPlugin := tracker;
                  epicId := epic; prdPath := prd; sandbox := sb |} in
      if decide (size props = size (entry_props e)) then Some e else None
  | _ => None
  end.

Definition is_entry (kv : string * JSON) : bool :=
  match as_entry kv.2 with Some _ => true | None => false end.

Definition as_entries (props : gmap string JSON)
    : option (gmap string SessionRegistryEntry) :=
  if forallb is_entry (map_to_list props)
  then Some (omap as_entry props)
  else None.

(** The view of a value at the interface [SessionRegistry]. *)
Definition as_SessionRegistry (v : JSON) : option SessionRegistry :=
  match v with
  | JObject props =>
      match props !! "version", props !! "sessions" with
      | Some (JNumber 1), Some (JObject ss) =>
          if decide (size props = 2)
          then ss' ← as_entries ss; Some {| sessions := ss' |}
          else None
      | _, _ => None
      end
  | _ => None
  end.

(** [parsed as SessionRegistry], made explicit.  The source does not check
    the cast; the operations are described on the values that inhabit the
    interface, and [IllTyped] marks the others. *)
Definition typed (v : JSON) : Outcome SessionRegistry :=
  match as_SessionRegistry v with
  | Some r => Returns r
  | None => Throws IllTyped
  end.

(** *** The file system, as far as the registry sees it *)

(** The text of the registry file, by what [JSON.parse] makes of it. *)
Inductive FileText : Type :=
| NotJSON                (* [JSON.parse] throws a SyntaxError *)
| Encodes (v : JSON).    (* [JSON.parse] returns [v] *)

Inductive FileState : Type :=
| Missing                (* [access(path, F_OK)] rejects *)
| Unreadable             (* the file exists, [readFile] rejects *)
| Holds (text : FileText).

Record World : Type := {
  registry_dir : bool;          (* does REGISTRY_DIR exist *)
  registry_file : FileState;    (* REGISTRY_DIR/sessions.json *)
  writes : nat                  (* calls of [writeFile] so far *)
}.

Definition access_file (f : FileState) : Outcome unit :=
  match f with
  | Missing => Throws FsError
  | _ => Returns tt
  end.

Definition readFile (f : FileState) : Outcome FileText :=
  match f with
  | Holds text => Returns text
  | _ => Throws FsError
  end.

Definition JSON_parse (text : FileText) : Outcome JSON :=
  match text with
  | NotJSON => Throws SyntaxError
  | Encodes v => Returns v
  end.

(** The text [JSON.stringify(v, null, 2)]. *)
Definition JSON_stringify (v : JSON) : FileText := Encodes v.

Definition writeFile (text : FileText) (w : World) : World :=
  {| registry_dir := registry_dir w;
     registry_file := Holds text;
     writes := S (writes w) |}.

Definition mkdir_recursive (w : World) : World :=
  {| registry_dir := true;
     registry_file := registry_file w;
     writes := writes w |}.

(** *** Store I/O *)

Definition ensureRegistryDir (w : World) : World :=
  if registry_dir w then w else mkdir_recursive w.

(** The body of the [try] block of [loadRegistry]. *)
Definition loadRegistry_try (w : World) : Outcome JSON :=
  _ ← access_file (registry_file w);
  content ← readFile (registry_file w);
  parsed ← JSON_parse content;
  version ← member parsed "version";
  if strict_ne_1 version then Returns empty_document
  else
    sessions_field ← member parsed "sessions";
    if negb (String.eqb (typeof sessions_field) "object")
    then Returns empty_document
    else Returns parsed.

Definition loadRegistry (w : World) : JSON :=
  try_catch (loadRegistry_try w) (fun _ => empty_document).

Definition saveRegistry (registry : SessionRegistry) (w : World) : World :=
  let w := ensureRegistryDir w in
  writeFile (JSON_stringify (registry_to_JSON registry)) w.

(** The registry read from disk, at its declared type. *)
Definition loadRegistry_typed (w : World) : Outcome SessionRegistry :=
  typed (loadRegistry w).

(** [Object.entries(o)] and [Object.values(o)]: the own properties of [o]
    in its enumeration order. *)
Definition Object_entries {A} (o : gmap string A) : list (string * A) :=
  map_to_list o.

Definition Object_values {A} (o : gmap string A) : list A :=
  (Object_entries o).*2.

(** *** Bracket access on [registry.sessions] *)

(** The property names of [Object.prototype], as ECMAScript with its
    Annex B defines them. *)
Definition Object_prototype_names : list string :=
  ["constructor"; "__defineGetter__"; "__defineSetter__"; "hasOwnProperty";
   "__lookupGetter__"; "__lookupSetter__"; "isPrototypeOf";
   "propertyIsEnumerable"; "toString"; "valueOf"; "__proto__";
   "toLocaleString"].

Definition inherited (name : string) : bool :=
  existsb (String.eqb name) Object_prototype_names.

(** What [sessions[name]] evaluates to: an entry of the registry, the
    member of [Object.prototype] of that name (a function, or
    [Object.prototype] itself for [__proto__]), or [undefined]. *)
Inductive Member : Type :=
| Own (entry : SessionRegistryEntry)
| Inherited (name : string)
| Absent.

(** [sessions[name]]: own properties come first. *)
Definition get_member (o : gmap string SessionRegistryEntry) (name : string)
    : Member :=
  match o !! name with
  | Some entry => Own entry
  | None => if inherited name then Inherited name else Absent
  end.

(** [sessions[name] = entry].  An own property is overwritten.  Without
    one, the assignment reaches [Object.prototype]: its [__proto__] is an
    accessor whose setter makes [entry] the prototype of [sessions] and
    stores nothing; its other properties are writable data properties, so
    the assignment creates an own property, as it does for any other
    name. *)
Definition set_member (o : gmap string SessionRegistryEntry) (name : string)
    (entry : SessionRegistryEntry) : gmap string SessionRegistryEntry :=
  match o !! name with
  | Some _ => <[name := entry]> o
  | None => if String.eqb name "__proto__" then o else <[name := entry]> o
  end.

(** *** Mutation operations *)

Definition registerSession (entry : SessionRegistryEntry) (w : World)
    : Outcome World :=
  registry ← loadRegistry_typed w;
  let registry :=
    {| sessions := set_member (sessions registry) (sessionId entry) entry |} in
  Returns (saveRegistry registry w).

(** [entry.status = status; entry.updatedAt = now] on the entry object. *)
Definition set_status (entry : SessionRegistryEntry) (st : SessionStatus)
    (now : string) : SessionRegistryEntry :=
  {| sessionId := sessionId entry;
     cwd := cwd entry;
     status := st;
     startedAt := startedAt entry;
     updatedAt := now;
     agentPlugin := agentPlugin entry;
     trackerPlugin := trackerPlugin entry;
     epicId := epicId entry;
     prdPath := prdPath entry;
     sandbox := sandbox entry |}.

(** [now] is [new Date().toISOString()] at the time of the call.  An own
    entry is the object the registry holds, so assigning to it updates the
    registry.  A member of [Object.prototype] is an object too, hence
    truthy: the two assignments land on that built-in object, the registry
    is as it was loaded, and it is saved.  [undefined] is falsy. *)
Definition updateRegistryStatus (id : string) (st : SessionStatus)
    (now : string) (w : World) : Outcome World :=
  registry ← loadRegistry_typed w;
  match get_member (sessions registry) id with
  | Own entry =>
      let registry :=
        {| sessions := <[id := set_status entry st now]> (sessions registry) |} in
      Returns (saveRegistry registry w)
  | Inherited _ => Returns (saveRegistry registry w)
  | Absent => Returns w
  end.

Definition unregisterSession (id : string) (w : World) : Outcome World :=
  registry ← loadRegistry_typed w;
  let registry := {| sessions := delete id (sessions registry) |} in
  Returns (saveRegistry registry w).

(** *** Query operations *)

(** [registry.sessions[sessionId] ?? null]: [Absent] is the [null] that
    stands in for [undefined]. *)
Definition getSessionById (id : string) (w : World) : Outcome Member :=
  registry ← loadRegistry_typed w;
  Returns (get_member (sessions registry) id).

Definition getSessionByCwd (dir : string) (w : World)
    : Outcome (option SessionRegistryEntry) :=
  registry ← loadRegistry_typed w;
  Returns (List.find (fun entry => String.eqb (cwd entry) dir)
                     (Object_values (sessions registry))).

Definition resumableStatuses : list SessionStatus :=
  [paused; running; interrupted].

(** [statuses.includes(s)] *)
Definition includes (statuses : list SessionStatus) (s : SessionStatus)
    : bool :=
  existsb (fun s' => bool_decide (s' = s)) statuses.

Definition listResumableSessions (w : World)
    : Outcome (list SessionRegistryEntry) :=
  registry ← loadRegistry_typed w;
  Returns (List.filter (fun entry => includes resumableStatuses (status entry))
                       (Object_values (sessions registry))).

Definition listAllSessions (w : World) : Outcome (list SessionRegistryEntry) :=
  registry ← loadRegistry_typed w;
  Returns (Object_values (sessions registry)).

(** [id.startsWith(prefix)] *)
Definition startsWith (id prefix : string) : bool := String.prefix prefix id.

Definition findSessionsByPrefix (prefix : string) (w : World)
    : Outcome (list SessionRegistryEntry) :=
  registry ← loadRegistry_typed w;
  Returns (List.filter (fun kv => startsWith kv.1 prefix)
                       (Object_entries (sessions registry))).*2.

(** *** Maintenance *)

(** One turn of the loop of [cleanupStaleRegistryEntries]: the state is the
    [sessions] object being pruned and the counter [cleaned]. *)
Definition cleanup_step (checkSessionExists : string -> bool)
    (state : gmap string SessionRegistryEntry * nat)
    (kv : string * SessionRegistryEntry)
    : gmap string SessionRegistryEntry * nat :=
  if checkSessionExists (cwd kv.2) then state
  else (delete kv.1 state.1, S state.2).

(** The loop runs over [Object.entries(registry.sessions)], taken once
    before the first deletion. *)
Definition cleanupStaleRegistryEntries (checkSessionExists : string -> bool)
    (w : World) : Outcome (nat * World) :=
  registry ← loadRegistry_typed w;
  let state :=
    fold_left (cleanup_step checkSessionExists)
              (Object_entries (sessions registry))
              (sessions registry, 0) in
  if 0 <? state.2
  then Returns (state.2, saveRegistry {| sessions := state.1 |} w)
  else Returns (state.2, w).

End Registry.

(** ** Desktop notifications *)

Module Notifications.

Record NotificationOptions : Type := {
  title : string;
  body : string;
  icon : option string
}.

(** The object handed to [notifier.notify]. *)
Record NotifyRequest : Type := {
  req_title : string;
  req_message : string;
  req_icon : option string;
  req_sound : bool
}.

(** What a [catch] clause may receive: an [Error] with its message, or any
    other value, given by its conversion [String(err)]. *)
Inductive Thrown : Type :=
| ThrownError (message : string)
| ThrownOther (text : string).

(** What [notifier.notify(request, callback)] may do: throw, or return
    after (or before) calling the callback any number of times, each time
    with [null] ([None]) or an [Error] ([Some message]). *)
Inductive NotifierBehaviour : Type :=
| NotifyThrows (t : Thrown)
| NotifyCalls (errs : list (option string)).

Definition Notifier : Type := NotifyRequest -> NotifierBehaviour.

Definition failure_warning (message : string) : string :=
  "[notifications] Failed to send notification: " ++ message.

(** The console is the list of warnings printed so far, latest last. *)
Definition console_warn (line : string) (console : list string)
    : list string :=
  console ++ [line].

(** The callback passed to [notifier.notify]. *)
Definition notify_callback (err : option string) (console : list string)
    : list string :=
  match err with
  | Some message => console_warn (failure_warning message) console
  | None => console
  end.

(** [notifier.notify(request, callback)] under a given behaviour. *)
Definition notify (notifier : Notifier) (request : NotifyRequest)
    (console : list string) : list string * option Thrown :=
  match notifier request with
  | NotifyThrows t => (console, Some t)
  | NotifyCalls errs =>
      (fold_left (fun c err => notify_callback err c) errs console, None)
  end.

(** [err instanceof Error ? err.message : String(err)] *)
Definition thrown_message (t : Thrown) : string :=
  match t with
  | ThrownError message => message
  | ThrownOther text => text
  end.

(** The result is the console afterwards and what the call throws, if
    anything. *)
Definition sendNotification (notifier : Notifier)
    (options : NotificationOptions) (console : list string)
    : list string * option Thrown :=
  let request :=
    {| req_title := title options;
       req_message := body options;
       req_icon := icon options;
       req_sound := false |} in
  match notify notifier request console with
  | (console, None) => (console, None)
  | (console, Some err) =>
      (console_warn (failure_warning (thrown_message err)) console, None)
  end.

End Notifications.

Import Registry.

(** ** Vocabulary of the properties, and sample states *)

(** The registry an operation finds when it loads from [w]. *)
Definition registry_state (w : World) (r : SessionRegistry) : Prop :=
  loadRegistry_typed w = Returns r.

(** Every key of [sessions] is the [sessionId] of its entry. *)
Definition keys_consistent (r : SessionRegistry) : Prop :=
  map_Forall (fun id entry => sessionId entry = id) (sessions r).

(** The resumable statuses, as the glossary lists them. *)
Definition resumable (s : SessionStatus) : Prop :=
  s = running \/ s = paused \/ s = interrupted.

#[local] Instance resumable_dec (s : SessionStatus) : Decision (resumable s).
Proof. unfold resumable. apply _. Defined.

(** A stale entry, under a liveness predicate. *)
Definition stale (isAlive : string -> bool) (entry : SessionRegistryEntry)
    : bool :=
  negb (isAlive (cwd entry)).

(** The pair [kv] is a stale entry stored under [id]. *)
Definition stale_at (isAlive : string -> bool) (id : string)
    (kv : string * SessionRegistryEntry) : bool :=
  bool_decide (kv.1 = id) && stale isAlive kv.2.

(** A console line that reports a failed notification. *)
Definition is_failure_warning (line : string) : Prop :=
  exists message, line = Notifications.failure_warning message.

(** No registry yet: the directory is missing too. *)
Definition fresh_world : World :=
  {| registry_dir := false; registry_file := Missing; writes := 0 |}.

(** A registry file with the text [{"version":1,"sessions":null}]. *)
Definition null_sessions_document : JSON :=
  JObject (<["version" := JNumber 1]> (<["sessions" := JNull]> ∅)).

(** A registry file with the text [{"version":1,"sessions":[]}]. *)
Definition array_sessions_document : JSON :=
  JObject (<["version" := JNumber 1]> (<["sessions" := JArray []]> ∅)).

Definition null_sessions_world : World :=
  {| registry_dir := true;
     registry_file := Holds (Encodes null_sessions_document);
     writes := 0 |}.

Definition sample_entry (id dir : string) (st : SessionStatus)
    : SessionRegistryEntry :=
  {| sessionId := id; cwd := dir; status := st;
     startedAt := "2025-01-01T00:00:00.000Z";
     updatedAt := "2025-01-01T00:00:00.000Z";
     agentPlugin := "opencode"; trackerPlugin := "beads";
     epicId := None; prdPath := None; sandbox := None |}.

Definition entry_a : SessionRegistryEntry := sample_entry "a" "/x" running.
Definition entry_b : SessionRegistryEntry := sample_entry "b" "/y" completed.

Definition registry_ab : SessionRegistry :=
  {| sessions := <["a" := entry_a]> (<["b" := entry_b]> ∅) |}.

(** The registry of the concrete scenario of the design document, on disk. *)
Definition world_ab : World := saveRegistry registry_ab fresh_world.

(** A registry file the store cannot use: it is missing or unreadable, its
    text is not JSON, or the value it holds fails the validation of
    [loadRegistry]. *)
Definition unusable (f : FileState) : Prop :=
  match f with
  | Missing | Unreadable | Holds NotJSON => True
  | Holds (Encodes v) =>
      member v "version" ≠ Returns (Some (JNumber 1)) \/
      exists field, member v "sessions" = Returns field /\
                    typeof field ≠ "object"
  end.

(** The registry of the scenario, written by a later schema version. *)
Definition version_2_world : World :=
  {| registry_dir := true;
     registry_file :=
       Holds (Encodes
         (JObject (<["version" := JNumber 2]>
                  (<["sessions" := JObject (entry_to_JSON <$> sessions registry_ab)]>
                   ∅))));
     writes := 0 |}.

(** The messages of the error callbacks, in order. *)
Definition callback_errors (errs : list (option string)) : list string :=
  omap id errs.

(** * Properties *)

(** ** The typed view inverts the encoding *)

Lemma as_entry_to_JSON (e : SessionRegistryEntry) :
  as_entry (entry_to_JSON e) = Some e.
Proof.
  destruct e as [id dir st started updated agent tracker epic prd sb].
  destruct st, epic, prd, sb; vm_compute; reflexivity.
Qed.

Lemma as_entries_to_JSON (m : gmap string SessionRegistryEntry) :
  as_entries (entry_to_JSON <$> m) = Some m.
Proof.
  unfold as_entries.
  assert (forallb is_entry (map_to_list (entry_to_JSON <$> m)) = true) as ->.
  { apply forallb_forall. intros [k v] Hin.
    apply list_elem_of_In, elem_of_map_to_list in Hin.
    rewrite lookup_fmap in Hin.
    destruct (m !! k) as [e|]; simpl in Hin; [|discriminate].
    injection Hin as <-. unfold is_entry.
    change (k, entry_to_JSON e).2 with (entry_to_JSON e).
    by rewrite as_entry_to_JSON. }
  f_equal. apply map_eq. intros k.
  rewrite lookup_omap, lookup_fmap.
  destruct (m !! k) as [e|]; [apply as_entry_to_JSON | reflexivity].
Qed.

Lemma as_SessionRegistry_to_JSON (r : SessionRegistry) :
  as_SessionRegistry (registry_to_JSON r) = Some r.
Proof.
  destruct r as [m].
  unfold as_SessionRegistry, registry_to_JSON; simpl.
  rewrite lookup_insert_eq.
  rewrite lookup_insert_ne by discriminate.
  rewrite lookup_insert_eq.
  destruct (decide _) as [_|Hsize].
  - by rewrite as_entries_to_JSON.
  - exfalso. apply Hsize. vm_compute. reflexivity.
Qed.

Lemma typed_registry_to_JSON (r : SessionRegistry) :
  typed (registry_to_JSON r) = Returns r.
Proof. unfold typed. by rewrite as_SessionRegistry_to_JSON. Qed.

Lemma empty_document_encoding :
  empty_document = registry_to_JSON empty_registry.
Proof. reflexivity. Qed.

(** ** The typed view accepts nothing but encodings

    A value seen at [SessionRegistry] is the encoding of what is seen: the
    typed operations neither drop nor invent properties. *)

Section ViewSound.

Variable props : gmap string JSON.

Lemma required_as_string (name s : string) :
  required as_string props name = Some s -> props !! name = Some (JString s).
Proof.
  unfold required. destruct (props !! name) as [[]|]; simpl; congruence.
Qed.

Lemma as_status_sound (v : JSON) (st : SessionStatus) :
  as_status v = Some st -> v = JString (status_string st).
Proof.
  destruct v as [| | |s| |]; try discriminate. unfold as_status.
  intros [_ Hname]%find_some. by apply String.eqb_eq in Hname as <-.
Qed.

Lemma required_as_status (name : string) (st : SessionStatus) :
  required as_status props name = Some st ->
  props !! name = Some (JString (status_string st)).
Proof.
  unfold required. destruct (props !! name) as [v|]; [|discriminate].
  intros Hst. change (as_status v = Some st) in Hst.
  by apply as_status_sound in Hst as ->.
Qed.

Lemma optionally_as_string (name : string) (o : option string) :
  optionally as_string props name = Some o -> props !! name = JString <$> o.
Proof.
  unfold optionally. destruct (props !! name) as [[]|]; simpl;
    intros Ho; by simplify_eq.
Qed.

Lemma optionally_as_bool (name : string) (o : option bool) :
  optionally as_bool props name = Some o -> props !! name = JBool <$> o.
Proof.
  unfold optionally. destruct (props !! name) as [[]|]; simpl;
    intros Ho; by simplify_eq.
Qed.

Lemma lookup_optional {A} (name : string) (enc : A -> JSON) (o : option A)
    (k : string) (x : JSON) :
  optional name enc o props !! k = Some x ->
  (k = name /\ Some x = enc <$> o) \/ props !! k = Some x.
Proof.
  destruct o as [a|]; simpl; [|by right].
  intros [[<- <-]|[_ ?]]%lookup_insert_Some; [by left | by right].
Qed.

End ViewSound.

Ltac lookup_inserted H :=
  repeat (apply lookup_insert_Some in H as [[<- <-]|[_ H]]; [done|]);
  by rewrite lookup_empty in H.

Lemma as_entry_sound (v : JSON) (e : SessionRegistryEntry) :
  as_entry v = Some e -> v = entry_to_JSON e.
Proof.
  destruct v as [| | | | |props]; try discriminate. unfold as_entry.
  destruct (required as_string props "sessionId") as [id|] eqn:Hid;
    [|discriminate].
  destruct (required as_string props "cwd") as [dir|] eqn:Hdir;
    [|discriminate].
  destruct (required as_status props "status") as [st|] eqn:Hst;
    [|discriminate].
  destruct (required as_string props "startedAt") as [started|] eqn:Hstarted;
    [|discriminate].
  destruct (required as_string props "updatedAt") as [updated|] eqn:Hupdated;
    [|discriminate].
  destruct (required as_string props "agentPlugin") as [agent|] eqn:Hagent;
    [|discriminate].
  destruct (required as_string props "trackerPlugin") as [tracker|]
    eqn:Htracker; [|discriminate].
  destruct (optionally as_string props "epicId") as [epic|] eqn:Hepic;
    [|discriminate].
  destruct (optionally as_string props "prdPath") as [prd|] eqn:Hprd;
    [|discriminate].
  destruct (optionally as_bool props "sandbox") as [sb|] eqn:Hsb;
    [|discriminate].
  simpl. destruct (decide _) as [Hsize|]; [|discriminate].
  intros [= <-]. unfold entry_to_JSON. f_equal. symmetry.
  apply map_subseteq_size_eq; [|lia].
  apply map_subseteq_spec. intros k x Hk. unfold entry_props in Hk.
  simpl in Hk.
  apply required_as_string in Hid, Hdir, Hstarted, Hupdated, Hagent, Htracker.
  apply required_as_status in Hst.
  apply optionally_as_string in Hepic, Hprd.
  apply optionally_as_bool in Hsb.
  apply lookup_optional in Hk as [[-> Hx]|Hk]; [congruence|].
  apply lookup_optional in Hk as [[-> Hx]|Hk]; [congruence|].
  apply lookup_optional in Hk as [[-> Hx]|Hk]; [congruence|].
  lookup_inserted Hk.
Qed.

Lemma as_entries_sound (props : gmap string JSON)
    (m : gmap string SessionRegistryEntry) :
  as_entries props = Some m -> props = entry_to_JSON <$> m.
Proof.
  unfold as_entries.
  destruct (forallb _ _) eqn:Hall; [|discriminate]. intros [= <-].
  rewrite forallb_forall in Hall.
  apply map_eq. intros k. rewrite lookup_fmap, lookup_omap.
  destruct (props !! k) as [v|] eqn:Hk; [|reflexivity]. simpl.
  specialize (Hall (k, v)). unfold is_entry in Hall; simpl in Hall.
  destruct (as_entry v) as [e|] eqn:He.
  - simpl. f_equal. by apply as_entry_sound.
  - discriminate Hall. by apply list_elem_of_In, elem_of_map_to_list.
Qed.

Lemma as_SessionRegistry_sound (v : JSON) (r : SessionRegistry) :
  as_SessionRegistry v = Some r -> v = registry_to_JSON r.
Proof.
  destruct v as [| | | | |props]; try discriminate. unfold as_SessionRegistry.
  destruct (props !! "version") as [[| |[|[| |]|]| | |]|] eqn:Hversion;
    try discriminate.
  destruct (props !! "sessions") as [[| | | | |ss]|] eqn:Hsessions;
    try discriminate.
  destruct (decide _) as [Hsize|]; [|discriminate].
  destruct (as_entries ss) as [m|] eqn:Hentries; [|discriminate].
  intros [= <-]. apply as_entries_sound in Hentries as ->.
  unfold registry_to_JSON; simpl. f_equal. symmetry.
  apply map_subseteq_size_eq; [|by rewrite Hsize].
  apply map_subseteq_spec. intros k x Hk.
  lookup_inserted Hk.
Qed.

(** The registry state of a world is the typed reading of what
    [loadRegistry] returns there. *)
Lemma registry_state_encoding (w : World) (r : SessionRegistry) :
  registry_state w r <-> loadRegistry w = registry_to_JSON r.
Proof.
  unfold registry_state, loadRegistry_typed, typed. split.
  - destruct (as_SessionRegistry _) as [r'|] eqn:Hview; [|discriminate].
    intros [= <-]. by apply as_SessionRegistry_sound.
  - intros ->. by rewrite as_SessionRegistry_to_JSON.
Qed.

(** ** Store I/O *)

Section StoreIO.

Variable w : World.

Lemma loadRegistry_missing :
  registry_file w = Missing -> loadRegistry w = empty_document.
Proof. unfold loadRegistry, loadRegistry_try. by intros ->. Qed.

Lemma loadRegistry_unreadable :
  registry_file w = Unreadable -> loadRegistry w = empty_document.
Proof. unfold loadRegistry, loadRegistry_try. by intros ->. Qed.

Lemma loadRegistry_not_JSON :
  registry_file w = Holds NotJSON -> loadRegistry w = empty_document.
Proof. unfold loadRegistry, loadRegistry_try. by intros ->. Qed.

Lemma loadRegistry_wrong_version (v : JSON) :
  registry_file w = Holds (Encodes v) ->
  member v "version" ≠ Returns (Some (JNumber 1)) ->
  loadRegistry w = empty_document.
Proof.
  unfold loadRegistry, loadRegistry_try. intros -> Hversion. simpl.
  destruct (member v "version") as [[[| | [|[]|] | | |]|]|]; simpl;
    try reflexivity.
  by destruct Hversion.
Qed.

Lemma loadRegistry_sessions_not_object (v : JSON) (field : option JSON) :
  registry_file w = Holds (Encodes v) ->
  member v "sessions" = Returns field ->
  typeof field ≠ "object" ->
  loadRegistry w = empty_document.
Proof.
  unfold loadRegistry, loadRegistry_try. intros -> Hfield Htype. simpl.
  destruct (member v "version") as [version|]; simpl; [|reflexivity].
  destruct (strict_ne_1 version); [reflexivity|].
  rewrite Hfield; simpl.
  destruct (String.eqb_spec (typeof field) "object"); by simpl.
Qed.

(** What the validation lets through: an object whose [version] is [1] and
    whose [sessions] has [typeof] ["object"]. *)
Lemma loadRegistry_accepts (props : gmap string JSON) :
  registry_file w = Holds (Encodes (JObject props)) ->
  props !! "version" = Some (JNumber 1) ->
  typeof (props !! "sessions") = "object" ->
  loadRegistry w = JObject props.
Proof.
  unfold loadRegistry, loadRegistry_try. intros -> Hversion Htype. simpl.
  rewrite Hversion; simpl. by rewrite Htype.
Qed.

End StoreIO.

Lemma ensureRegistryDir_idempotent (w : World) :
  ensureRegistryDir (ensureRegistryDir w) = ensureRegistryDir w.
Proof.
  unfold ensureRegistryDir. destruct (registry_dir w) eqn:Hdir.
  - by rewrite Hdir.
  - reflexivity.
Qed.

Lemma registry_file_saveRegistry (registry : SessionRegistry) (w : World) :
  registry_file (saveRegistry registry w)
  = Holds (Encodes (registry_to_JSON registry)).
Proof. reflexivity. Qed.

Lemma writes_saveRegistry (registry : SessionRegistry) (w : World) :
  writes (saveRegistry registry w) = S (writes w).
Proof. unfold saveRegistry, ensureRegistryDir. by destruct (registry_dir w). Qed.

Lemma loadRegistry_saveRegistry (registry : SessionRegistry) (w : World) :
  loadRegistry (saveRegistry registry w) = registry_to_JSON registry.
Proof.
  apply loadRegistry_accepts.
  - apply registry_file_saveRegistry.
  - reflexivity.
  - unfold typeof. rewrite lookup_insert_ne by discriminate.
    by rewrite lookup_insert_eq.
Qed.

Lemma registry_state_saveRegistry (r : SessionRegistry) (w : World) :
  registry_state (saveRegistry r w) r.
Proof. apply registry_state_encoding, loadRegistry_saveRegistry. Qed.

Lemma registry_state_fresh (w : World) :
  registry_file w = Missing -> registry_state w empty_registry.
Proof.
  intros Hfile. apply registry_state_encoding.
  by rewrite loadRegistry_missing.
Qed.

(** ** Fail-open loading *)

(** Loading is total, and every failure inside the [try] block, as well as
    a wrong [version] or a [sessions] field whose [typeof] is not
    ["object"], yields the empty document. *)
Lemma loadRegistry_fail_open (w : World) :
  match registry_file w with
  | Missing | Unreadable | Holds NotJSON => loadRegistry w = empty_document
  | Holds (Encodes v) =>
      (member v "version" ≠ Returns (Some (JNumber 1)) ->
       loadRegistry w = empty_document) /\
      (forall field, member v "sessions" = Returns field ->
       typeof field ≠ "object" -> loadRegistry w = empty_document)
  end.
Proof.
  destruct (registry_file w) as [| |[|v]] eqn:Hfile.
  - by apply loadRegistry_missing.
  - by apply loadRegistry_unreadable.
  - by apply loadRegistry_not_JSON.
  - split.
    + by apply loadRegistry_wrong_version.
    + intros field. by apply loadRegistry_sessions_not_object.
Qed.

(** The complete picture: [loadRegistry] returns the parsed value exactly
    when it is an object whose [version] is [1] and whose [sessions] is
    [null], an array or an object, and the empty document otherwise. *)
Lemma loadRegistry_spec (w : World) :
  loadRegistry w
  = match registry_file w with
    | Holds (Encodes (JObject props)) =>
        match props !! "version", props !! "sessions" with
        | Some (JNumber 1), Some (JNull | JArray _ | JObject _) => JObject props
        | _, _ => empty_document
        end
    | _ => empty_document
    end.
Proof.
  unfold loadRegistry, loadRegistry_try.
  destruct (registry_file w) as [| |[|v]]; try reflexivity.
  destruct v as [| | | | |props]; try reflexivity. simpl.
  destruct (props !! "version") as [[| |[|[| |]|]| | |]|]; try reflexivity.
  simpl. destruct (props !! "sessions") as [[| | | | |]|]; reflexivity.
Qed.

(** An array in [sessions] passes the validation as well. *)
Example loadRegistry_array_sessions :
  loadRegistry {| registry_dir := true;
                  registry_file := Holds (Encodes array_sessions_document);
                  writes := 0 |}
  = array_sessions_document.
Proof. reflexivity. Qed.

(** C1, at the input where the code departs from it: a registry file whose
    [sessions] is [null] has [version] 1 and [typeof null] is ["object"], so
    the validation lets it through: [loadRegistry] returns the parsed
    document, with its [null], and not the empty document; the value does
    not inhabit [SessionRegistry]. *)
Theorem loadRegistry_null_sessions :
  member null_sessions_document "sessions" = Returns (Some JNull) /\
  loadRegistry null_sessions_world = null_sessions_document /\
  loadRegistry null_sessions_world ≠ empty_document /\
  loadRegistry_typed null_sessions_world = Throws IllTyped.
Proof.
  repeat split; try reflexivity.
  intros Heq.
  assert (member (loadRegistry null_sessions_world) "sessions"
          = member empty_document "sessions") as Hfield by by rewrite Heq.
  vm_compute in Hfield. discriminate.
Qed.

(** ** Save, then load *)

(** C2: for every registry document [doc] and every state of the disk,
    loading after [saveRegistry doc] returns the value of [doc], which at
    the declared type is [doc] itself. *)
Theorem save_load_round_trip (doc : SessionRegistry) (w : World) :
  loadRegistry (saveRegistry doc w) = registry_to_JSON doc /\
  loadRegistry_typed (saveRegistry doc w) = Returns doc.
Proof.
  split; [apply loadRegistry_saveRegistry | apply registry_state_saveRegistry].
Qed.

(** ** Operations, once the registry they load is known *)

Lemma registry_state_unique (w : World) (r r' : SessionRegistry) :
  registry_state w r -> registry_state w r' -> r = r'.
Proof. unfold registry_state. congruence. Qed.

Section Brackets.

Variable o : gmap string SessionRegistryEntry.

Lemma get_member_own (name : string) (entry : SessionRegistryEntry) :
  o !! name = Some entry -> get_member o name = Own entry.
Proof. unfold get_member. by intros ->. Qed.

Lemma get_member_inherited (name : string) :
  o !! name = None -> inherited name = true ->
  get_member o name = Inherited name.
Proof. unfold get_member. by intros -> ->. Qed.

Lemma get_member_absent (name : string) :
  o !! name = None -> inherited name = false -> get_member o name = Absent.
Proof. unfold get_member. by intros -> ->. Qed.

Lemma get_member_Own (name : string) (entry : SessionRegistryEntry) :
  get_member o name = Own entry <-> o !! name = Some entry.
Proof.
  unfold get_member. destruct (o !! name) as [entry'|].
  - split; by intros [= ->].
  - by destruct (inherited name).
Qed.

Lemma set_member_stores (name : string) (entry : SessionRegistryEntry) :
  name ≠ "__proto__" -> set_member o name entry = <[name := entry]> o.
Proof.
  intros Hname. unfold set_member. destruct (o !! name); [reflexivity|].
  by destruct (String.eqb_spec name "__proto__").
Qed.

Lemma set_member_overwrites (name : string)
    (entry : SessionRegistryEntry) :
  is_Some (o !! name) -> set_member o name entry = <[name := entry]> o.
Proof. intros [entry' Hname]. unfold set_member. by rewrite Hname. Qed.

Lemma set_member_proto (entry : SessionRegistryEntry) :
  o !! "__proto__" = None -> set_member o "__proto__" entry = o.
Proof. intros Hname. unfold set_member. by rewrite Hname. Qed.

(** Whatever the name, the assignment stores [entry] under it or leaves
    the object alone. *)
Lemma set_member_cases (name : string) (entry : SessionRegistryEntry) :
  set_member o name entry = <[name := entry]> o \/
  (set_member o name entry = o /\ o !! name = None /\ name = "__proto__").
Proof.
  unfold set_member. destruct (o !! name) eqn:Hname; [by left|].
  destruct (String.eqb_spec name "__proto__"); [by right | by left].
Qed.

End Brackets.

Section Loaded.

Variables (w : World) (r : SessionRegistry).
Hypothesis Hstate : registry_state w r.

Lemma registerSession_loaded (entry : SessionRegistryEntry) :
  registerSession entry w
  = Returns (saveRegistry
               {| sessions := set_member (sessions r) (sessionId entry) entry |}
               w).
Proof. unfold registerSession. by rewrite Hstate. Qed.

Lemma registerSession_stores (entry : SessionRegistryEntry) :
  sessionId entry ≠ "__proto__" ->
  registerSession entry w
  = Returns (saveRegistry
               {| sessions := <[sessionId entry := entry]> (sessions r) |} w).
Proof. intros Hid. by rewrite registerSession_loaded, set_member_stores. Qed.

Lemma updateRegistryStatus_present (id : string) (st : SessionStatus)
    (now : string) (entry : SessionRegistryEntry) :
  sessions r !! id = Some entry ->
  updateRegistryStatus id st now w
  = Returns (saveRegistry
               {| sessions := <[id := set_status entry st now]> (sessions r) |}
               w).
Proof.
  intros Hid. unfold updateRegistryStatus. rewrite Hstate; simpl.
  by rewrite (get_member_own _ _ _ Hid).
Qed.

Lemma updateRegistryStatus_inherited (id : string) (st : SessionStatus)
    (now : string) :
  sessions r !! id = None -> inherited id = true ->
  updateRegistryStatus id st now w = Returns (saveRegistry r w).
Proof.
  intros Hid Hname. unfold updateRegistryStatus. rewrite Hstate; simpl.
  by rewrite (get_member_inherited _ _ Hid Hname).
Qed.

Lemma updateRegistryStatus_absent (id : string) (st : SessionStatus)
    (now : string) :
  sessions r !! id = None -> inherited id = false ->
  updateRegistryStatus id st now w = Returns w.
Proof.
  intros Hid Hname. unfold updateRegistryStatus. rewrite Hstate; simpl.
  by rewrite (get_member_absent _ _ Hid Hname).
Qed.

Lemma unregisterSession_loaded (id : string) :
  unregisterSession id w
  = Returns (saveRegistry {| sessions := delete id (sessions r) |} w).
Proof. unfold unregisterSession. by rewrite Hstate. Qed.

End Loaded.

(** ** The loop of cleanup-stale *)

Lemma cleanup_loop_count (isAlive : string -> bool)
    (l : list (string * SessionRegistryEntry)) :
  forall (m : gmap string SessionRegistryEntry) (n : nat),
  (fold_left (cleanup_step isAlive) l (m, n)).2
  = n + length (List.filter (fun kv => stale isAlive kv.2) l).
Proof.
  induction l as [|[k e] l IH]; intros m n; simpl.
  - lia.
  - unfold cleanup_step at 2; unfold stale in *; simpl.
    destruct (isAlive (cwd e)); simpl; rewrite IH; lia.
Qed.

Lemma cleanup_loop_lookup (isAlive : string -> bool) (id : string)
    (l : list (string * SessionRegistryEntry)) :
  forall (m : gmap string SessionRegistryEntry) (n : nat),
  (fold_left (cleanup_step isAlive) l (m, n)).1 !! id
  = if existsb (stale_at isAlive id) l then None else m !! id.
Proof.
  induction l as [|[k e] l IH]; intros m n; simpl; [reflexivity|].
  unfold cleanup_step at 2, stale_at at 1, stale; simpl.
  destruct (isAlive (cwd e)); simpl.
  - rewrite andb_false_r. apply IH.
  - rewrite andb_true_r, IH. case_bool_decide as Hk; simpl.
    + subst k. rewrite lookup_delete_eq. by destruct (existsb _ l).
    + by rewrite lookup_delete_ne.
Qed.

Lemma length_filter_values {A} (f : A -> bool) (l : list (string * A)) :
  length (List.filter f l.*2) = length (List.filter (fun kv => f kv.2) l).
Proof.
  induction l as [|[k a] l IH]; csimpl; [reflexivity|].
  destruct (f a); csimpl; by rewrite IH.
Qed.

(** Run over the entries of [m] itself, the loop keeps exactly the entries
    the predicate accepts. *)
Lemma cleanup_loop_entries (isAlive : string -> bool)
    (m : gmap string SessionRegistryEntry) (id : string) :
  (fold_left (cleanup_step isAlive) (Object_entries m) (m, 0)).1 !! id
  = match m !! id with
    | Some entry => if isAlive (cwd entry) then Some entry else None
    | None => None
    end.
Proof.
  rewrite cleanup_loop_lookup.
  destruct (m !! id) as [entry|] eqn:Hid.
  - destruct (isAlive (cwd entry)) eqn:Halive.
    + destruct (existsb _ _) eqn:Hex; [|reflexivity].
      apply existsb_exists in Hex as ([k e] & Hin & Hstale).
      unfold stale_at, stale in Hstale; simpl in Hstale.
      apply andb_prop in Hstale as [Hk He].
      apply bool_decide_eq_true in Hk. subst k.
      apply list_elem_of_In, elem_of_map_to_list in Hin.
      rewrite Hid in Hin. injection Hin as <-.
      rewrite Halive in He. discriminate.
    + assert (existsb (stale_at isAlive id) (Object_entries m) = true) as ->;
        [|reflexivity].
      apply existsb_exists. exists (id, entry). split.
      * by apply list_elem_of_In, elem_of_map_to_list.
      * unfold stale_at, stale; simpl. rewrite Halive.
        by rewrite bool_decide_eq_true_2.
  - by destruct (existsb _ _).
Qed.

Lemma cleanup_loop_size (isAlive : string -> bool)
    (l : list (string * SessionRegistryEntry)) :
  forall (m : gmap string SessionRegistryEntry) (n : nat),
  NoDup l.*1 ->
  (forall k e, (k, e) ∈ l -> m !! k = Some e) ->
  size (fold_left (cleanup_step isAlive) l (m, n)).1
  + (fold_left (cleanup_step isAlive) l (m, n)).2
  = size m + n.
Proof.
  induction l as [|[k e] l IH]; intros m n Hdup Hin; [reflexivity|].
  rewrite fmap_cons in Hdup. apply NoDup_cons in Hdup as [Hfresh Hdup].
  simpl. unfold cleanup_step at 2 4; simpl.
  destruct (isAlive (cwd e)).
  - apply IH; [done|]. intros k' e' Hin'. apply Hin. by right.
  - rewrite IH; [|done|].
    + rewrite map_size_delete, (Hin k e) by left.
      assert (0 < size m); [|simpl; lia].
      destruct (decide (size m = 0)) as [Hzero|]; [|lia].
      apply map_size_empty_inv in Hzero. subst m.
      specialize (Hin k e ltac:(left)). by rewrite lookup_empty in Hin.
    + intros k' e' Hin'. rewrite lookup_delete_ne.
      * apply Hin. by right.
      * intros <-. apply Hfresh. apply list_elem_of_fmap. by exists (k, e').
Qed.

Lemma no_stale_all_alive (isAlive : string -> bool)
    (m : gmap string SessionRegistryEntry) :
  length (List.filter (stale isAlive) (Object_values m)) = 0 ->
  forall id entry, m !! id = Some entry -> isAlive (cwd entry) = true.
Proof.
  intros Hnone id entry Hid.
  destruct (isAlive (cwd entry)) eqn:Halive; [reflexivity|].
  assert (In entry (List.filter (stale isAlive) (Object_values m))) as Hin.
  { apply filter_In. split.
    - apply list_elem_of_In, list_elem_of_fmap. exists (id, entry).
      split; [reflexivity|]. by apply elem_of_map_to_list.
    - unfold stale. by rewrite Halive. }
  destruct (List.filter _ _); [destruct Hin | discriminate].
Qed.

(** cleanup-stale on a known registry: the count is the number of stale
    entries, the registry left is the input without them, and the file is
    written once, or not at all when nothing was stale. *)
Lemma cleanupStaleRegistryEntries_loaded (w : World) (r : SessionRegistry)
    (isAlive : string -> bool) :
  registry_state w r ->
  exists (w' : World) (r' : SessionRegistry),
    cleanupStaleRegistryEntries isAlive w
    = Returns (length (List.filter (stale isAlive) (Object_values (sessions r))),
               w') /\
    registry_state w' r' /\
    (forall id, sessions r' !! id
                = match sessions r !! id with
                  | Some entry => if isAlive (cwd entry) then Some entry else None
                  | None => None
                  end) /\
    size (sessions r)
    = length (List.filter (stale isAlive) (Object_values (sessions r)))
      + size (sessions r') /\
    (length (List.filter (stale isAlive) (Object_values (sessions r))) = 0 ->
     w' = w) /\
    (0 < length (List.filter (stale isAlive) (Object_values (sessions r))) ->
     writes w' = S (writes w)).
Proof.
  intros Hstate. unfold cleanupStaleRegistryEntries. rewrite Hstate; simpl.
  pose proof (cleanup_loop_count isAlive (Object_entries (sessions r))
                (sessions r) 0) as Hcount.
  pose proof (cleanup_loop_size isAlive (Object_entries (sessions r))
                (sessions r) 0 (NoDup_fst_map_to_list _)) as Hsize.
  pose proof (cleanup_loop_entries isAlive (sessions r)) as Hlookup.
  rewrite <- length_filter_values in Hcount. simpl in Hcount.
  fold (Object_values (sessions r)) in Hcount.
  specialize (Hsize ltac:(intros k e; apply elem_of_map_to_list)).
  destruct (fold_left _ _ _) as [m cleaned]; simpl in *. subst cleaned.
  destruct (length _) as [|K] eqn:HK; simpl.
  - exists w, r. split_and!; try done; try lia.
    intros id. destruct (sessions r !! id) as [entry|] eqn:Hid; [|done].
    by rewrite (no_stale_all_alive isAlive (sessions r) HK id entry Hid).
  - exists (saveRegistry {| sessions := m |} w), {| sessions := m |}.
    split_and!; try done.
    + apply registry_state_saveRegistry.
    + simpl. lia.
    + intros _. apply writes_saveRegistry.
Qed.

(** ** Cleanup-stale *)

(** C3: for every registry [r] found on disk and every predicate
    [isAlive], cleanup-stale returns the number [K] of entries whose [cwd]
    the predicate maps to [false]; the registry it leaves holds an entry
    under an id exactly when [r] held that same entry there and the
    predicate is [true] on its [cwd], so [K] entries are gone; when [K] is
    [0] the world, file and write count included, is the one it started
    from, and otherwise the file was written once. *)
Theorem cleanup_removes_exactly_the_stale (w : World) (r : SessionRegistry)
    (isAlive : string -> bool) :
  registry_state w r ->
  exists (w' : World) (r' : SessionRegistry),
    cleanupStaleRegistryEntries isAlive w
    = Returns (length (List.filter (stale isAlive) (Object_values (sessions r))),
               w') /\
    registry_state w' r' /\
    (forall id entry,
       sessions r' !! id = Some entry <->
       sessions r !! id = Some entry /\ isAlive (cwd entry) = true) /\
    size (sessions r)
    = length (List.filter (stale isAlive) (Object_values (sessions r)))
      + size (sessions r') /\
    (length (List.filter (stale isAlive) (Object_values (sessions r))) = 0 ->
     w' = w) /\
    (0 < length (List.filter (stale isAlive) (Object_values (sessions r))) ->
     writes w' = S (writes w)).
Proof.
  intros Hstate.
  destruct (cleanupStaleRegistryEntries_loaded w r isAlive Hstate)
    as (w' & r' & Hrun & Hstate' & Hlookup & Hsize & Hnone & Hsome).
  exists w', r'. split_and!; try done.
  intros id entry. rewrite Hlookup.
  destruct (sessions r !! id) as [entry'|];
    [destruct (isAlive (cwd entry')) eqn:Halive|].
  - split; [by intros [= <-] | by intros [? _]].
  - split; [done|]. intros [[= <-] Htrue]. congruence.
  - split; [done | by intros [? _]].
Qed.

Lemma cleanup_removes_exactly_the_stale_witness :
  registry_state world_ab registry_ab /\
  exists (w' : World) (r' : SessionRegistry),
    cleanupStaleRegistryEntries (String.eqb "/y") world_ab = Returns (1, w') /\
    registry_state w' r' /\
    (forall id entry,
       sessions r' !! id = Some entry <->
       sessions registry_ab !! id = Some entry /\
       String.eqb "/y" (cwd entry) = true) /\
    size (sessions registry_ab) = 1 + size (sessions r') /\
    (1 = 0 -> w' = world_ab) /\
    (0 < 1 -> writes w' = S (writes world_ab)).
Proof.
  split.
  - vm_compute. reflexivity.
  - apply (cleanup_removes_exactly_the_stale world_ab registry_ab
             (String.eqb "/y")).
    vm_compute. reflexivity.
Defined.

(** ** Update-status on an unknown id *)

(** C4, at an input where the code departs from it: no session is
    registered under ["constructor"], yet [registry.sessions["constructor"]]
    is the function [Object], inherited from [Object.prototype] and truthy.
    [updateRegistryStatus] takes the branch of a known id, stamps that
    function and calls [saveRegistry]: where there was no registry file the
    call creates one, holding the empty registry, and the write is
    counted. *)
Theorem updateRegistryStatus_inherited_id_saves :
  registry_state fresh_world empty_registry /\
  sessions empty_registry !! "constructor" = None /\
  exists w' : World,
    updateRegistryStatus "constructor" paused "2025-06-01T12:00:00.000Z"
                         fresh_world
    = Returns w' /\
    registry_file fresh_world = Missing /\
    registry_file w' = Holds (Encodes empty_document) /\
    writes w' = S (writes fresh_world).
Proof.
  split; [reflexivity|]. split; [reflexivity|].
  eexists. split_and!; reflexivity.
Qed.

(** ** Registering twice under one id *)

Lemma key_absent_count {A} (k : string) (l : list (string * A)) :
  k ∉ l.*1 -> List.filter (fun kv => String.eqb kv.1 k) l = [].
Proof.
  induction l as [|[k' a] l IH]; intros Hnotin; [reflexivity|]. simpl.
  rewrite fmap_cons in Hnotin. apply not_elem_of_cons in Hnotin as [Hne Hl].
  destruct (String.eqb_spec k' k); [by subst | by apply IH].
Qed.

Lemma key_present_count {A} (k : string) (l : list (string * A)) :
  NoDup l.*1 -> k ∈ l.*1 ->
  length (List.filter (fun kv => String.eqb kv.1 k) l) = 1.
Proof.
  induction l as [|[k' a] l IH]; intros Hdup Hin.
  - by apply elem_of_nil in Hin.
  - rewrite fmap_cons in Hdup, Hin. apply NoDup_cons in Hdup as [Hfresh Hdup].
    simpl in *. destruct (String.eqb_spec k' k) as [->|Hne]; simpl.
    + by rewrite key_absent_count.
    + apply elem_of_cons in Hin as [->|Hin]; [done | by apply IH].
Qed.

(** C5, at an input where the code departs from it: two entries with the
    session id ["__proto__"], registered one after the other where the
    registry has no such key.  Each assignment
    [registry.sessions["__proto__"] = entry] sets the prototype of
    [sessions] and creates no property, so each call saves the registry as
    it loaded it: afterwards the registry on disk is empty, no entry is
    listed, and the lookup of the id returns [Object.prototype], not the
    second entry. *)
Theorem registerSession_proto_id_stores_nothing :
  sessionId (sample_entry "__proto__" "/y" paused)
  = sessionId (sample_entry "__proto__" "/x" running) /\
  exists w1 w2 : World,
    registerSession (sample_entry "__proto__" "/x" running) fresh_world
    = Returns w1 /\
    registerSession (sample_entry "__proto__" "/y" paused) w1 = Returns w2 /\
    registry_state w2 empty_registry /\
    listAllSessions w2 = Returns [] /\
    getSessionById "__proto__" w2 = Returns (Inherited "__proto__").
Proof.
  split; [reflexivity|].
  set (w1 := saveRegistry empty_registry fresh_world).
  exists w1, (saveRegistry empty_registry w1).
  split_and!; vm_compute; reflexivity.
Qed.

(** ** Keys and session ids *)

Lemma set_status_sessionId (entry : SessionRegistryEntry)
    (st : SessionStatus) (now : string) :
  sessionId (set_status entry st now) = sessionId entry.
Proof. reflexivity. Qed.

(** C6: when every key of the registry found on disk is the [sessionId]
    of its entry, each of register, update-status, unregister and
    cleanup-stale succeeds and leaves on disk a registry with the same
    property. *)
Theorem mutations_keep_keys_consistent (w : World) (r : SessionRegistry) :
  registry_state w r ->
  keys_consistent r ->
  (forall entry, exists w' r',
     registerSession entry w = Returns w' /\
     registry_state w' r' /\ keys_consistent r') /\
  (forall id st now, exists w' r',
     updateRegistryStatus id st now w = Returns w' /\
     registry_state w' r' /\ keys_consistent r') /\
  (forall id, exists w' r',
     unregisterSession id w = Returns w' /\
     registry_state w' r' /\ keys_consistent r') /\
  (forall isAlive, exists cleaned w' r',
     cleanupStaleRegistryEntries isAlive w = Returns (cleaned, w') /\
     registry_state w' r' /\ keys_consistent r').
Proof.
  intros Hstate Hkeys. split_and!.
  - intros entry. eexists _, _. split_and!.
    + by apply registerSession_loaded.
    + apply registry_state_saveRegistry.
    + unfold keys_consistent; simpl.
      destruct (set_member_cases (sessions r) (sessionId entry) entry)
        as [->|[-> _]]; [by apply map_Forall_insert_2 | done].
  - intros id st now. destruct (sessions r !! id) as [entry|] eqn:Hid;
      [|destruct (inherited id) eqn:Hname].
    + eexists _, _. split_and!.
      * by apply updateRegistryStatus_present.
      * apply registry_state_saveRegistry.
      * apply map_Forall_insert_2; [|done].
        rewrite set_status_sessionId. by apply (Hkeys id entry).
    + exists (saveRegistry r w), r. split_and!; [| |done].
      * by apply (updateRegistryStatus_inherited w r).
      * apply registry_state_saveRegistry.
    + exists w, r. split_and!; [|done..].
      by apply (updateRegistryStatus_absent w r).
  - intros id. eexists _, _. split_and!.
    + by apply unregisterSession_loaded.
    + apply registry_state_saveRegistry.
    + by apply map_Forall_delete.
  - intros isAlive.
    destruct (cleanupStaleRegistryEntries_loaded w r isAlive Hstate)
      as (w' & r' & Hrun & Hstate' & Hlookup & _).
    eexists _, w', r'. split_and!; [exact Hrun | exact Hstate' |].
    intros id entry Hentry. rewrite Hlookup in Hentry.
    destruct (sessions r !! id) as [entry'|] eqn:Hid; [|done].
    destruct (isAlive (cwd entry')); [|done].
    injection Hentry as <-. by apply (Hkeys id entry').
Qed.

Lemma keys_consistent_check (r : SessionRegistry) :
  forallb (fun kv => String.eqb (sessionId kv.2) kv.1)
          (Object_entries (sessions r)) = true ->
  keys_consistent r.
Proof.
  intros Hall id entry Hentry.
  rewrite forallb_forall in Hall.
  apply (String.eqb_eq (sessionId entry) id), (Hall (id, entry)).
  by apply list_elem_of_In, elem_of_map_to_list.
Qed.

Lemma mutations_keep_keys_consistent_witness :
  registry_state world_ab registry_ab /\
  keys_consistent registry_ab /\
  exists w' r',
    updateRegistryStatus "a" paused "2025-06-01T12:00:00.000Z" world_ab
    = Returns w' /\
    registry_state w' r' /\ keys_consistent r'.
Proof.
  assert (registry_state world_ab registry_ab) as Hstate
    by (vm_compute; reflexivity).
  assert (keys_consistent registry_ab) as Hkeys
    by (apply keys_consistent_check; vm_compute; reflexivity).
  split; [exact Hstate|]. split; [exact Hkeys|].
  exact (proj1 (proj2 (mutations_keep_keys_consistent world_ab registry_ab
                         Hstate Hkeys))
           "a" paused "2025-06-01T12:00:00.000Z").
Defined.

(** ** The resumable sessions *)

Lemma includes_resumableStatuses (s : SessionStatus) :
  includes resumableStatuses s = true <-> resumable s.
Proof. unfold resumable. destruct s; vm_compute; intuition discriminate. Qed.

Lemma includes_bool_decide (s : SessionStatus) :
  includes resumableStatuses s = bool_decide (resumable s).
Proof. by destruct s. Qed.

(** C7: the result of [listResumableSessions] is the list of all entries,
    in enumeration order, with the entries whose status is not one of
    running, paused, interrupted left out: an entry is in the result exactly
    when it is in the registry and has one of these statuses, so none in the
    result is completed or failed. *)
Theorem listResumableSessions_exactly (w : World) (r : SessionRegistry) :
  registry_state w r ->
  exists result : list SessionRegistryEntry,
    listResumableSessions w = Returns result /\
    result = List.filter (fun entry => bool_decide (resumable (status entry)))
                         (Object_values (sessions r)) /\
    (forall entry,
       entry ∈ result <->
       entry ∈ Object_values (sessions r) /\ resumable (status entry)) /\
    (forall entry,
       entry ∈ result -> status entry ≠ completed /\ status entry ≠ failed).
Proof.
  intros Hstate. unfold listResumableSessions. rewrite Hstate; simpl.
  eexists. split; [reflexivity|].
  assert (forall entry,
            entry ∈ List.filter
                      (fun entry => includes resumableStatuses (status entry))
                      (Object_values (sessions r)) <->
            entry ∈ Object_values (sessions r) /\ resumable (status entry))
    as Hmem.
  { intros entry.
    rewrite list_elem_of_In, filter_In, <- list_elem_of_In.
    by rewrite includes_resumableStatuses. }
  split_and!.
  - apply List.filter_ext. intros entry.
    exact (includes_bool_decide (status entry)).
  - exact Hmem.
  - intros entry [_ Hres]%Hmem. unfold resumable in Hres.
    split; intros Hst; rewrite Hst in Hres; intuition discriminate.
Qed.

Lemma listResumableSessions_exactly_witness :
  registry_state world_ab registry_ab /\
  exists result : list SessionRegistryEntry,
    listResumableSessions world_ab = Returns result /\
    result = List.filter (fun entry => bool_decide (resumable (status entry)))
                         (Object_values (sessions registry_ab)) /\
    (forall entry,
       entry ∈ result <->
       entry ∈ Object_values (sessions registry_ab) /\
       resumable (status entry)) /\
    (forall entry,
       entry ∈ result -> status entry ≠ completed /\ status entry ≠ failed).
Proof.
  split; [vm_compute; reflexivity|].
  apply (listResumableSessions_exactly world_ab registry_ab).
  vm_compute. reflexivity.
Defined.

(** ** Lookup by id prefix *)

Lemma startsWith_append (id prefix : string) :
  startsWith id prefix = true <-> exists rest, id = String.append prefix rest.
Proof.
  unfold startsWith. revert id.
  induction prefix as [|c prefix IH]; intros id; simpl.
  - destruct id; split; eauto.
  - destruct id as [|c' id]; simpl.
    + split; [done | by intros [rest Hrest]].
    + destruct (Ascii.ascii_dec c c') as [->|Hne].
      * rewrite IH. split; intros [rest Hrest]; exists rest.
        -- by rewrite Hrest.
        -- simpl in Hrest. by injection Hrest.
      * split; [done|]. intros [rest Hrest]. simpl in Hrest.
        injection Hrest as Hc _. by destruct Hne.
Qed.

Lemma startsWith_empty (id : string) : startsWith id "" = true.
Proof. by destruct id. Qed.

Lemma filter_startsWith_empty {A} (l : list (string * A)) :
  List.filter (fun kv => startsWith kv.1 "") l = l.
Proof.
  induction l as [|[id a] l IH]; [reflexivity|].
  simpl. by rewrite startsWith_empty, IH.
Qed.

(** C8: an entry is in the result of [findSessionsByPrefix x] exactly when
    the registry holds it under an id that is [x] followed by some string,
    compared character by character; the result comes in enumeration order;
    when keys and session ids agree this is the set of entries whose
    [sessionId] starts with [x]; and the empty prefix gives every entry. *)
Theorem findSessionsByPrefix_exactly (w : World) (r : SessionRegistry)
    (x : string) :
  registry_state w r ->
  exists result : list SessionRegistryEntry,
    findSessionsByPrefix x w = Returns result /\
    (forall entry,
       entry ∈ result <->
       exists id rest,
         sessions r !! id = Some entry /\ id = String.append x rest) /\
    result = (List.filter (fun kv => startsWith kv.1 x)
                          (Object_entries (sessions r))).*2 /\
    (keys_consistent r ->
     forall entry,
       entry ∈ result <->
       entry ∈ Object_values (sessions r) /\
       exists rest, sessionId entry = String.append x rest) /\
    findSessionsByPrefix "" w = Returns (Object_values (sessions r)).
Proof.
  intros Hstate. unfold findSessionsByPrefix. rewrite Hstate; simpl.
  eexists. split; [reflexivity|].
  assert (forall entry,
            entry ∈ (List.filter (fun kv => startsWith kv.1 x)
                                 (Object_entries (sessions r))).*2 <->
            exists id, sessions r !! id = Some entry /\
                       startsWith id x = true) as Hmem.
  { intros entry. rewrite list_elem_of_fmap. split.
    - intros ([id entry'] & -> & Hin). exists id.
      apply list_elem_of_In, filter_In in Hin as [Hin Hpre].
      by apply list_elem_of_In, elem_of_map_to_list in Hin.
    - intros (id & Hid & Hpre). exists (id, entry). split; [done|].
      apply list_elem_of_In, filter_In. split; [|done].
      by apply list_elem_of_In, elem_of_map_to_list. }
  split_and!.
  - intros entry. rewrite Hmem. split.
    + intros (id & Hid & [rest Hrest]%startsWith_append). by exists id, rest.
    + intros (id & rest & Hid & Hrest). exists id. split; [done|].
      apply startsWith_append. by exists rest.
  - reflexivity.
  - intros Hkeys entry. rewrite Hmem. unfold Object_values, Object_entries.
    rewrite list_elem_of_fmap. split.
    + intros (id & Hid & Hpre). split.
      * exists (id, entry). split; [done|]. by apply elem_of_map_to_list.
      * apply startsWith_append. by rewrite (Hkeys id entry Hid).
    + intros [([id entry'] & -> & Hin) Hpre].
      apply elem_of_map_to_list in Hin. exists id. split; [done|].
      apply startsWith_append. simpl in Hpre.
      by rewrite <- (Hkeys id entry' Hin).
  - unfold Object_values. by rewrite filter_startsWith_empty.
Qed.

Lemma findSessionsByPrefix_exactly_witness :
  registry_state world_ab registry_ab /\
  findSessionsByPrefix "a" world_ab = Returns [entry_a].
Proof.
  split; [vm_compute; reflexivity|].
  destruct (findSessionsByPrefix_exactly world_ab registry_ab "a"
              ltac:(vm_compute; reflexivity))
    as (result & Hrun & _ & Hresult & _).
  rewrite Hrun, Hresult. vm_compute. reflexivity.
Defined.

(** ** Unregistering twice *)

(** C9: [unregisterSession id], run twice in a row, succeeds both times;
    the second run leaves the registry file exactly as the first one left
    it, holding the initial registry without [id]; and each run writes the
    file once, the second one too, where the key is no longer there. *)
Theorem unregisterSession_idempotent (w : World) (r : SessionRegistry)
    (id : string) :
  registry_state w r ->
  exists w1 w2 : World,
    unregisterSession id w = Returns w1 /\
    unregisterSession id w1 = Returns w2 /\
    registry_file w2 = registry_file w1 /\
    registry_state w1 {| sessions := delete id (sessions r) |} /\
    registry_state w2 {| sessions := delete id (sessions r) |} /\
    delete id (sessions r) !! id = None /\
    writes w1 = S (writes w) /\
    writes w2 = S (writes w1).
Proof.
  intros Hstate.
  set (r1 := {| sessions := delete id (sessions r) |}).
  assert (unregisterSession id (saveRegistry r1 w)
          = Returns (saveRegistry r1 (saveRegistry r1 w))) as Hsecond.
  { rewrite (unregisterSession_loaded _ r1 (registry_state_saveRegistry r1 w)).
    unfold r1 at 2; simpl. by rewrite delete_delete_eq. }
  exists (saveRegistry r1 w), (saveRegistry r1 (saveRegistry r1 w)).
  split_and!.
  - by apply unregisterSession_loaded.
  - exact Hsecond.
  - reflexivity.
  - apply registry_state_saveRegistry.
  - apply registry_state_saveRegistry.
  - apply lookup_delete_eq.
  - apply writes_saveRegistry.
  - apply writes_saveRegistry.
Qed.

Lemma unregisterSession_idempotent_witness :
  registry_state world_ab registry_ab /\
  exists w1 w2 : World,
    unregisterSession "a" world_ab = Returns w1 /\
    unregisterSession "a" w1 = Returns w2 /\
    registry_file w2 = registry_file w1 /\
    registry_state w1 {| sessions := delete "a" (sessions registry_ab) |} /\
    registry_state w2 {| sessions := delete "a" (sessions registry_ab) |} /\
    delete "a" (sessions registry_ab) !! "a" = None /\
    writes w1 = S (writes world_ab) /\
    writes w2 = S (writes w1).
Proof.
  split; [vm_compute; reflexivity|].
  apply (unregisterSession_idempotent world_ab registry_ab "a").
  vm_compute. reflexivity.
Defined.

(** ** Notifications *)

Import Notifications.

Lemma notify_callbacks_warn (errs : list (option string))
    (console : list string) :
  exists warnings,
    fold_left (fun c err => notify_callback err c) errs console
    = console ++ warnings /\
    Forall is_failure_warning warnings.
Proof.
  revert console. induction errs as [|err errs IH]; intros console; simpl.
  - exists []. by rewrite app_nil_r.
  - destruct (IH (notify_callback err console)) as (warnings & -> & Hall).
    destruct err as [message|]; simpl.
    + exists (failure_warning message :: warnings).
      unfold console_warn. rewrite <- app_assoc. split; [done|].
      constructor; [by exists message | done].
    + by exists warnings.
Qed.

(** C10: for every notifier, whatever it does with the request (throw an
    error, throw any other value, call back with or without an error, any
    number of times), and for all options, [sendNotification] returns
    without throwing, and all it does is append warnings about the failed
    notification to the console; the registry file is out of its reach. *)
Theorem sendNotification_never_throws (notifier : Notifier)
    (options : NotificationOptions) (console : list string) :
  exists warnings,
    sendNotification notifier options console = (console ++ warnings, None) /\
    Forall is_failure_warning warnings.
Proof.
  unfold sendNotification, notify.
  destruct (notifier _) as [t|errs].
  - exists [failure_warning (thrown_message t)]. split; [reflexivity|].
    constructor; [by eexists | constructor].
  - destruct (notify_callbacks_warn errs console) as (warnings & -> & Hall).
    by exists warnings.
Qed.

(** ** The concrete scenario of the design document *)

Example concrete_scenario :
  exists w1 w2 w3 : World,
    registerSession entry_a fresh_world = Returns w1 /\
    registerSession entry_b w1 = Returns w2 /\
    listAllSessions w2 = Returns [entry_a; entry_b] /\
    listResumableSessions w2 = Returns [entry_a] /\
    getSessionByCwd "/y" w2 = Returns (Some entry_b) /\
    unregisterSession "a" w2 = Returns w3 /\
    listAllSessions w3 = Returns [entry_b].
Proof.
  set (w1 := saveRegistry {| sessions := <["a" := entry_a]> ∅ |} fresh_world).
  set (w2 := saveRegistry registry_ab w1).
  set (w3 := saveRegistry {| sessions := <["b" := entry_b]> ∅ |} w2).
  exists w1, w2, w3. split_and!; vm_compute; reflexivity.
Qed.

(** * Further properties of the registry and of the notifier *)

(** ** Status updates *)

(** update-status on a known id succeeds with one write; the entry under
    that id gets the new status and the time of the call as [updatedAt] and
    keeps every other field, [startedAt] included; no other id is touched
    and no id appears or disappears. *)
Theorem updateRegistryStatus_present_effect (w : World) (r : SessionRegistry)
    (id : string) (st : SessionStatus) (now : string)
    (entry : SessionRegistryEntry) :
  registry_state w r ->
  sessions r !! id = Some entry ->
  exists (w' : World) (r' : SessionRegistry) (entry' : SessionRegistryEntry),
    updateRegistryStatus id st now w = Returns w' /\
    registry_state w' r' /\
    writes w' = S (writes w) /\
    sessions r' !! id = Some entry' /\
    status entry' = st /\ updatedAt entry' = now /\
    sessionId entry' = sessionId entry /\ cwd entry' = cwd entry /\
    startedAt entry' = startedAt entry /\
    agentPlugin entry' = agentPlugin entry /\
    trackerPlugin entry' = trackerPlugin entry /\
    epicId entry' = epicId entry /\ prdPath entry' = prdPath entry /\
    sandbox entry' = sandbox entry /\
    (forall id', id' ≠ id -> sessions r' !! id' = sessions r !! id') /\
    dom (sessions r') = dom (sessions r).
Proof.
  intros Hstate Hid.
  eexists _, {| sessions := <[id := set_status entry st now]> (sessions r) |},
    (set_status entry st now).
  split_and!; try reflexivity.
  - by apply updateRegistryStatus_present.
  - apply registry_state_saveRegistry.
  - apply writes_saveRegistry.
  - apply lookup_insert_eq.
  - intros id' Hne. by apply lookup_insert_ne.
  - simpl. apply dom_insert_lookup_L. by exists entry.
Qed.

Lemma updateRegistryStatus_present_effect_witness :
  registry_state world_ab registry_ab /\
  sessions registry_ab !! "a" = Some entry_a /\
  exists w', updateRegistryStatus "a" paused "2025-06-01T12:00:00.000Z" world_ab
             = Returns w' /\ writes w' = 2.
Proof.
  assert (registry_state world_ab registry_ab) as Hstate
    by (vm_compute; reflexivity).
  assert (sessions registry_ab !! "a" = Some entry_a) as Hid
    by (vm_compute; reflexivity).
  split; [exact Hstate|]. split; [exact Hid|].
  destruct (updateRegistryStatus_present_effect world_ab registry_ab "a"
              paused "2025-06-01T12:00:00.000Z" entry_a Hstate Hid)
    as (w' & r' & entry' & Hrun & _ & Hwrites & _).
  exists w'. split; [exact Hrun | exact Hwrites].
Defined.

(** ** Queries, once the registry they load is known *)

Section LoadedQueries.

Variables (w : World) (r : SessionRegistry).
Hypothesis Hstate : registry_state w r.

Lemma getSessionById_loaded (id : string) :
  getSessionById id w = Returns (get_member (sessions r) id).
Proof. unfold getSessionById. by rewrite Hstate. Qed.

Lemma getSessionByCwd_loaded (dir : string) :
  getSessionByCwd dir w
  = Returns (List.find (fun entry => String.eqb (cwd entry) dir)
                       (Object_values (sessions r))).
Proof. unfold getSessionByCwd. by rewrite Hstate. Qed.

Lemma listAllSessions_loaded :
  listAllSessions w = Returns (Object_values (sessions r)).
Proof. unfold listAllSessions. by rewrite Hstate. Qed.

Lemma listResumableSessions_loaded :
  listResumableSessions w
  = Returns (List.filter
               (fun entry => includes resumableStatuses (status entry))
               (Object_values (sessions r))).
Proof. unfold listResumableSessions. by rewrite Hstate. Qed.

Lemma findSessionsByPrefix_loaded (prefix : string) :
  findSessionsByPrefix prefix w
  = Returns (List.filter (fun kv => startsWith kv.1 prefix)
                         (Object_entries (sessions r))).*2.
Proof. unfold findSessionsByPrefix. by rewrite Hstate. Qed.

End LoadedQueries.

(** ** Register, unregister and lookup by id *)

Lemma get_member_insert_ne (o : gmap string SessionRegistryEntry)
    (name name' : string) (entry : SessionRegistryEntry) :
  name ≠ name' ->
  get_member (<[name := entry]> o) name' = get_member o name'.
Proof. intros Hne. unfold get_member. by rewrite lookup_insert_ne. Qed.

Lemma get_member_delete_ne (o : gmap string SessionRegistryEntry)
    (name name' : string) :
  name ≠ name' -> get_member (delete name o) name' = get_member o name'.
Proof. intros Hne. unfold get_member. by rewrite lookup_delete_ne. Qed.

(** After [registerSession entry] with a session id other than
    ["__proto__"], looking up that id returns the entry, and looking up
    any other id returns what it returned before. *)
Theorem register_then_getSessionById (w : World) (r : SessionRegistry)
    (entry : SessionRegistryEntry) :
  registry_state w r ->
  sessionId entry ≠ "__proto__" ->
  exists w' : World,
    registerSession entry w = Returns w' /\
    getSessionById (sessionId entry) w' = Returns (Own entry) /\
    (forall id, id ≠ sessionId entry ->
                getSessionById id w' = getSessionById id w).
Proof.
  intros Hstate Hid. eexists. split; [by apply registerSession_stores|].
  split.
  - rewrite (getSessionById_loaded _ _ (registry_state_saveRegistry _ w)).
    simpl. f_equal. apply get_member_own, lookup_insert_eq.
  - intros id Hne.
    rewrite (getSessionById_loaded _ _ (registry_state_saveRegistry _ w)).
    rewrite (getSessionById_loaded w r Hstate).
    simpl. by rewrite get_member_insert_ne.
Qed.

Lemma register_then_getSessionById_witness :
  registry_state world_ab registry_ab /\
  sessionId (sample_entry "c" "/x" paused) ≠ "__proto__" /\
  exists w' : World,
    registerSession (sample_entry "c" "/x" paused) world_ab = Returns w' /\
    getSessionById "c" w' = Returns (Own (sample_entry "c" "/x" paused)) /\
    (forall id, id ≠ "c" -> getSessionById id w' = getSessionById id world_ab).
Proof.
  split; [vm_compute; reflexivity|].
  split; [discriminate|].
  apply (register_then_getSessionById world_ab registry_ab
           (sample_entry "c" "/x" paused));
    [vm_compute; reflexivity | discriminate].
Defined.

(** After [unregisterSession id], looking up [id] finds no entry: for an
    id that is not the name of a property of [Object.prototype] the lookup
    returns null; and looking up any other id returns what it returned
    before. *)
Theorem unregister_then_getSessionById (w : World) (r : SessionRegistry)
    (id : string) :
  registry_state w r ->
  inherited id = false ->
  exists w' : World,
    unregisterSession id w = Returns w' /\
    getSessionById id w' = Returns Absent /\
    (forall id', id' ≠ id -> getSessionById id' w' = getSessionById id' w).
Proof.
  intros Hstate Hname. eexists. split; [by apply unregisterSession_loaded|].
  split.
  - rewrite (getSessionById_loaded _ _ (registry_state_saveRegistry _ w)).
    simpl. f_equal. apply get_member_absent; [apply lookup_delete_eq | done].
  - intros id' Hne.
    rewrite (getSessionById_loaded _ _ (registry_state_saveRegistry _ w)).
    rewrite (getSessionById_loaded w r Hstate).
    simpl. by rewrite get_member_delete_ne.
Qed.

Lemma unregister_then_getSessionById_witness :
  registry_state world_ab registry_ab /\
  inherited "a" = false /\
  exists w' : World,
    unregisterSession "a" world_ab = Returns w' /\
    getSessionById "a" w' = Returns Absent /\
    (forall id', id' ≠ "a" -> getSessionById id' w' = getSessionById id' world_ab).
Proof.
  split; [vm_compute; reflexivity|].
  split; [reflexivity|].
  apply (unregister_then_getSessionById world_ab registry_ab "a");
    [vm_compute; reflexivity | reflexivity].
Defined.

(** Registering an entry under an id the registry does not have and
    unregistering that id again gives back the registry as it was: loading
    returns the same document as before the two calls. *)
Theorem register_unregister_round_trip (w : World) (r : SessionRegistry)
    (entry : SessionRegistryEntry) :
  registry_state w r ->
  sessions r !! sessionId entry = None ->
  exists w1 w2 : World,
    registerSession entry w = Returns w1 /\
    unregisterSession (sessionId entry) w1 = Returns w2 /\
    registry_state w2 r /\
    loadRegistry w2 = loadRegistry w.
Proof.
  intros Hstate Hfresh.
  set (r1 := {| sessions := set_member (sessions r) (sessionId entry) entry |}).
  assert ({| sessions := delete (sessionId entry) (sessions r1) |} = r) as Hr.
  { destruct r as [m]. simpl in *. f_equal.
    destruct (set_member_cases m (sessionId entry) entry) as [->|[-> _]];
      [by apply delete_insert_id | by apply delete_id]. }
  exists (saveRegistry r1 w), (saveRegistry r (saveRegistry r1 w)).
  split_and!.
  - by apply registerSession_loaded.
  - rewrite (unregisterSession_loaded _ r1 (registry_state_saveRegistry r1 w)).
    by rewrite Hr.
  - apply registry_state_saveRegistry.
  - rewrite loadRegistry_saveRegistry. symmetry.
    by apply registry_state_encoding.
Qed.

Lemma register_unregister_round_trip_witness :
  registry_state world_ab registry_ab /\
  sessions registry_ab !! sessionId (sample_entry "c" "/x" paused) = None /\
  exists w1 w2 : World,
    registerSession (sample_entry "c" "/x" paused) world_ab = Returns w1 /\
    unregisterSession (sessionId (sample_entry "c" "/x" paused)) w1
    = Returns w2 /\
    registry_state w2 registry_ab /\
    loadRegistry w2 = loadRegistry world_ab.
Proof.
  split; [vm_compute; reflexivity|].
  split; [vm_compute; reflexivity|].
  apply (register_unregister_round_trip world_ab registry_ab
           (sample_entry "c" "/x" paused));
    vm_compute; reflexivity.
Defined.

Lemma set_member_commute (o : gmap string SessionRegistryEntry)
    (k1 k2 : string) (e1 e2 : SessionRegistryEntry) :
  k1 ≠ k2 ->
  set_member (set_member o k1 e1) k2 e2
  = set_member (set_member o k2 e2) k1 e1.
Proof.
  intros Hne. unfold set_member.
  destruct (o !! k1) eqn:H1, (o !! k2) eqn:H2;
    destruct (String.eqb_spec k1 "__proto__") as [Hp1|Hp1],
             (String.eqb_spec k2 "__proto__") as [Hp2|Hp2];
    try congruence;
    rewrite ?lookup_insert_ne, ?H1, ?H2 by done;
    rewrite ?lookup_insert_ne, ?H1, ?H2 by done;
    try reflexivity;
    by apply insert_insert_ne.
Qed.

(** Two registrations under different ids can be made in either order:
    afterwards every id looks up to the same result and the lists of all
    sessions hold the same entries. *)
Theorem register_commutes (w : World) (r : SessionRegistry)
    (e1 e2 : SessionRegistryEntry) :
  registry_state w r ->
  sessionId e1 ≠ sessionId e2 ->
  exists (w1 w12 w2 w21 : World) (all12 all21 : list SessionRegistryEntry),
    registerSession e1 w = Returns w1 /\
    registerSession e2 w1 = Returns w12 /\
    registerSession e2 w = Returns w2 /\
    registerSession e1 w2 = Returns w21 /\
    (forall id, getSessionById id w12 = getSessionById id w21) /\
    listAllSessions w12 = Returns all12 /\
    listAllSessions w21 = Returns all21 /\
    all12 ≡ₚ all21.
Proof.
  intros Hstate Hne.
  set (r1 := {| sessions := set_member (sessions r) (sessionId e1) e1 |}).
  set (r2 := {| sessions := set_member (sessions r) (sessionId e2) e2 |}).
  set (r12 := {| sessions := set_member (sessions r1) (sessionId e2) e2 |}).
  set (r21 := {| sessions := set_member (sessions r2) (sessionId e1) e1 |}).
  assert (r21 = r12) as Hr.
  { unfold r21, r12, r2, r1; simpl. f_equal. symmetry.
    by apply set_member_commute. }
  exists (saveRegistry r1 w), (saveRegistry r12 (saveRegistry r1 w)),
         (saveRegistry r2 w), (saveRegistry r21 (saveRegistry r2 w)).
  eexists _, _. split_and!.
  - by apply registerSession_loaded.
  - apply registerSession_loaded, registry_state_saveRegistry.
  - by apply registerSession_loaded.
  - apply registerSession_loaded, registry_state_saveRegistry.
  - intros id.
    rewrite !(getSessionById_loaded _ _ (registry_state_saveRegistry _ _)).
    by rewrite Hr.
  - apply listAllSessions_loaded, registry_state_saveRegistry.
  - apply listAllSessions_loaded, registry_state_saveRegistry.
  - by rewrite Hr.
Qed.

Lemma register_commutes_witness :
  registry_state fresh_world empty_registry /\
  sessionId entry_a ≠ sessionId entry_b /\
  exists (w1 w12 w2 w21 : World) (all12 all21 : list SessionRegistryEntry),
    registerSession entry_a fresh_world = Returns w1 /\
    registerSession entry_b w1 = Returns w12 /\
    registerSession entry_b fresh_world = Returns w2 /\
    registerSession entry_a w2 = Returns w21 /\
    (forall id, getSessionById id w12 = getSessionById id w21) /\
    listAllSessions w12 = Returns all12 /\
    listAllSessions w21 = Returns all21 /\
    all12 ≡ₚ all21.
Proof.
  split; [vm_compute; reflexivity|].
  split; [discriminate|].
  apply (register_commutes fresh_world empty_registry entry_a entry_b);
    [vm_compute; reflexivity | discriminate].
Defined.

(** ** What [loadRegistry] hands to the operations *)

(** Whatever is on disk, [loadRegistry] returns an object whose [version]
    is [1] and whose [sessions] has [typeof] ["object"]: its result passes
    its own validation. *)
Theorem loadRegistry_result_is_valid (w : World) :
  exists props : gmap string JSON,
    loadRegistry w = JObject props /\
    props !! "version" = Some (JNumber 1) /\
    typeof (props !! "sessions") = "object".
Proof.
  rewrite loadRegistry_spec.
  assert (exists props : gmap string JSON,
            empty_document = JObject props /\
            props !! "version" = Some (JNumber 1) /\
            typeof (props !! "sessions") = "object") as Hempty
    by (eexists; split_and!; reflexivity).
  destruct (registry_file w) as [| |[|[| | | | |props]]]; try exact Hempty.
  destruct (props !! "version") as [[| |[|[| |]|]| | |]|] eqn:Hversion;
    try exact Hempty.
  destruct (props !! "sessions") as [[| | | | |]|] eqn:Hsessions;
    try exact Hempty;
    exists props; by rewrite Hsessions.
Qed.

Lemma loadRegistry_unusable (w : World) :
  unusable (registry_file w) -> loadRegistry w = empty_document.
Proof.
  intros Hfile. destruct (registry_file w) as [| |[|v]] eqn:Hw.
  - by apply loadRegistry_missing.
  - by apply loadRegistry_unreadable.
  - by apply loadRegistry_not_JSON.
  - destruct Hfile as [Hversion|(field & Hfield & Htype)].
    + by apply (loadRegistry_wrong_version w v).
    + by apply (loadRegistry_sessions_not_object w v field).
Qed.

Lemma registry_state_unusable (w : World) :
  unusable (registry_file w) -> registry_state w empty_registry.
Proof.
  intros Hfile. apply registry_state_encoding.
  by rewrite loadRegistry_unusable.
Qed.

(** On a registry file that is missing, unreadable, not JSON, of another
    version or without a [sessions] object, every query answers as on an
    empty registry and cleanup-stale finds nothing; for an id that is not
    the name of a property of [Object.prototype], the lookup by id returns
    null and update-status does nothing.  None of this writes. *)
Theorem unusable_file_reads_as_empty (w : World) :
  unusable (registry_file w) ->
  (forall id, inherited id = false -> getSessionById id w = Returns Absent) /\
  (forall dir, getSessionByCwd dir w = Returns None) /\
  listAllSessions w = Returns [] /\
  listResumableSessions w = Returns [] /\
  (forall prefix, findSessionsByPrefix prefix w = Returns []) /\
  (forall isAlive, cleanupStaleRegistryEntries isAlive w = Returns (0, w)) /\
  (forall id st now, inherited id = false ->
                     updateRegistryStatus id st now w = Returns w).
Proof.
  intros Hstate%registry_state_unusable. split_and!.
  - intros id Hname. rewrite (getSessionById_loaded w _ Hstate).
    f_equal. by apply get_member_absent.
  - intros dir. by rewrite (getSessionByCwd_loaded w _ Hstate).
  - by rewrite (listAllSessions_loaded w _ Hstate).
  - by rewrite (listResumableSessions_loaded w _ Hstate).
  - intros prefix. by rewrite (findSessionsByPrefix_loaded w _ Hstate).
  - intros isAlive. unfold cleanupStaleRegistryEntries. by rewrite Hstate.
  - intros id st now Hname.
    by apply (updateRegistryStatus_absent w empty_registry).
Qed.

Lemma unusable_file_reads_as_empty_witness :
  unusable (registry_file version_2_world) /\
  listAllSessions version_2_world = Returns [] /\
  getSessionById "a" version_2_world = Returns Absent.
Proof.
  assert (unusable (registry_file version_2_world)) as Hfile.
  { left. vm_compute. discriminate. }
  split; [exact Hfile|].
  destruct (unusable_file_reads_as_empty version_2_world Hfile)
    as (Hid & _ & Hall & _).
  split; [exact Hall | exact (Hid "a" eq_refl)].
Defined.

(** The first registration on such a file, under a session id other than
    ["__proto__"], replaces it: the registry then on disk holds the new
    entry and nothing of what the file held. *)
Theorem register_replaces_unusable_file (w : World)
    (entry : SessionRegistryEntry) :
  unusable (registry_file w) ->
  sessionId entry ≠ "__proto__" ->
  exists w' : World,
    registerSession entry w = Returns w' /\
    registry_state w' {| sessions := {[sessionId entry := entry]} |} /\
    listAllSessions w' = Returns [entry].
Proof.
  intros Hstate%registry_state_unusable Hid. eexists. split_and!.
  - by apply registerSession_stores.
  - apply registry_state_saveRegistry.
  - rewrite (listAllSessions_loaded _ _ (registry_state_saveRegistry _ w)).
    unfold Object_values, Object_entries. simpl.
    change (<[sessionId entry := entry]> ∅)
      with ({[sessionId entry := entry]} : gmap string SessionRegistryEntry).
    by rewrite map_to_list_singleton.
Qed.

Lemma register_replaces_unusable_file_witness :
  unusable (registry_file version_2_world) /\
  sessionId (sample_entry "c" "/z" paused) ≠ "__proto__" /\
  exists w' : World,
    registerSession (sample_entry "c" "/z" paused) version_2_world
    = Returns w' /\
    registry_state w'
      {| sessions := {[sessionId (sample_entry "c" "/z" paused)
                       := sample_entry "c" "/z" paused]} |} /\
    listAllSessions w' = Returns [sample_entry "c" "/z" paused].
Proof.
  assert (unusable (registry_file version_2_world)) as Hfile.
  { left. vm_compute. discriminate. }
  split; [exact Hfile|]. split; [discriminate|].
  apply (register_replaces_unusable_file version_2_world
           (sample_entry "c" "/z" paused) Hfile).
  discriminate.
Defined.

(** ** The queries against the registry *)

Lemma elem_of_Object_values {A} (m : gmap string A) (a : A) :
  a ∈ Object_values m <-> exists id, m !! id = Some a.
Proof.
  unfold Object_values, Object_entries. rewrite list_elem_of_fmap. split.
  - intros ([id a'] & -> & Hin). exists id. by apply elem_of_map_to_list.
  - intros [id Hid]. exists (id, a). split; [done|].
    by apply elem_of_map_to_list.
Qed.

(** [getSessionByCwd dir] returns an entry of the registry whose [cwd] is
    [dir]; it returns nothing exactly when no entry has that [cwd]; and
    when one entry only has it, that entry is the result. *)
Theorem getSessionByCwd_finds_entry_of_cwd (w : World) (r : SessionRegistry)
    (dir : string) :
  registry_state w r ->
  exists result : option SessionRegistryEntry,
    getSessionByCwd dir w = Returns result /\
    (forall entry, result = Some entry ->
       cwd entry = dir /\ exists id, sessions r !! id = Some entry) /\
    (result = None <->
     forall id entry, sessions r !! id = Some entry -> cwd entry ≠ dir) /\
    (forall id entry,
       sessions r !! id = Some entry -> cwd entry = dir ->
       (forall id' entry', sessions r !! id' = Some entry' ->
                           cwd entry' = dir -> entry' = entry) ->
       result = Some entry).
Proof.
  intros Hstate. eexists. split; [by apply getSessionByCwd_loaded|].
  set (found := List.find _ _).
  assert (forall entry, found = Some entry ->
            cwd entry = dir /\ exists id, sessions r !! id = Some entry)
    as Hsome.
  { intros entry [Hin Hdir]%find_some. split.
    - by apply String.eqb_eq.
    - by apply elem_of_Object_values, list_elem_of_In. }
  assert (found = None ->
          forall id entry, sessions r !! id = Some entry -> cwd entry ≠ dir)
    as Hnone.
  { intros Hfound id entry Hid Hdir.
    assert (In entry (Object_values (sessions r))) as Hin
      by (apply list_elem_of_In, elem_of_Object_values; by exists id).
    apply (find_none _ _ Hfound) in Hin. simpl in Hin.
    rewrite Hdir, String.eqb_refl in Hin. discriminate Hin. }
  split_and!.
  - exact Hsome.
  - split; [exact Hnone|]. intros Hall.
    destruct found as [entry|] eqn:Hfound; [|reflexivity].
    destruct (Hsome entry eq_refl) as [Hdir [id Hid]].
    by destruct (Hall id entry Hid).
  - intros id entry Hid Hdir Hunique.
    destruct found as [entry'|] eqn:Hfound.
    + destruct (Hsome entry' eq_refl) as [Hdir' [id' Hid']].
      f_equal. by apply (Hunique id').
    + by destruct (Hnone eq_refl id entry Hid).
Qed.

Lemma getSessionByCwd_finds_entry_of_cwd_witness :
  registry_state world_ab registry_ab /\
  exists result : option SessionRegistryEntry,
    getSessionByCwd "/y" world_ab = Returns result /\
    (forall entry, result = Some entry ->
       cwd entry = "/y" /\ exists id, sessions registry_ab !! id = Some entry).
Proof.
  assert (registry_state world_ab registry_ab) as Hstate
    by (vm_compute; reflexivity).
  split; [exact Hstate|].
  destruct (getSessionByCwd_finds_entry_of_cwd world_ab registry_ab "/y"
              Hstate) as (result & Hrun & Hsome & _).
  exists result. split; [exact Hrun | exact Hsome].
Defined.

(** [listAllSessions] returns the entries stored in the registry, each id
    contributing one: an entry is listed exactly when some id maps to it,
    the list is as long as the registry has ids, and every entry of the
    registry that [getSessionById] returns is listed. *)
Theorem listAllSessions_lists_every_id (w : World) (r : SessionRegistry) :
  registry_state w r ->
  exists result : list SessionRegistryEntry,
    listAllSessions w = Returns result /\
    (forall entry, entry ∈ result <-> exists id, sessions r !! id = Some entry) /\
    length result = size (sessions r) /\
    (forall id entry,
       getSessionById id w = Returns (Own entry) -> entry ∈ result).
Proof.
  intros Hstate. eexists. split; [by apply listAllSessions_loaded|].
  split_and!.
  - apply elem_of_Object_values.
  - unfold Object_values, Object_entries.
    by rewrite length_fmap, length_map_to_list.
  - intros id entry. rewrite (getSessionById_loaded w r Hstate).
    intros [= Hid%get_member_Own]. apply elem_of_Object_values. by exists id.
Qed.

Lemma listAllSessions_lists_every_id_witness :
  registry_state world_ab registry_ab /\
  exists result : list SessionRegistryEntry,
    listAllSessions world_ab = Returns result /\ length result = 2.
Proof.
  assert (registry_state world_ab registry_ab) as Hstate
    by (vm_compute; reflexivity).
  split; [exact Hstate|].
  destruct (listAllSessions_lists_every_id world_ab registry_ab Hstate)
    as (result & Hrun & _ & Hlength & _).
  exists result. split; [exact Hrun | exact Hlength].
Defined.

Lemma filter_sublist_of {A} (f : A -> bool) (l : list A) :
  List.filter f l `sublist_of` l.
Proof.
  induction l as [|a l IH]; simpl; [constructor|].
  destruct (f a); by constructor.
Qed.

Lemma filter_sublist_implied {A} (f g : A -> bool) (l : list A) :
  (forall a, f a = true -> g a = true) ->
  List.filter f l `sublist_of` List.filter g l.
Proof.
  intros Himp. induction l as [|a l IH]; simpl; [constructor|].
  destruct (f a) eqn:Hf.
  - rewrite (Himp a Hf). by constructor.
  - destruct (g a); [by constructor | done].
Qed.

(** The resumable sessions and the sessions found by a prefix are taken
    from the list of all sessions, in the same order. *)
Theorem selections_are_sublists_of_listAllSessions (w : World)
    (r : SessionRegistry) (prefix : string) :
  registry_state w r ->
  exists all resumable_ones found : list SessionRegistryEntry,
    listAllSessions w = Returns all /\
    listResumableSessions w = Returns resumable_ones /\
    findSessionsByPrefix prefix w = Returns found /\
    resumable_ones `sublist_of` all /\
    found `sublist_of` all.
Proof.
  intros Hstate. eexists _, _, _. split_and!.
  - by apply listAllSessions_loaded.
  - by apply listResumableSessions_loaded.
  - by apply findSessionsByPrefix_loaded.
  - apply filter_sublist_of.
  - unfold Object_values. apply fmap_sublist, filter_sublist_of.
Qed.

Lemma selections_are_sublists_of_listAllSessions_witness :
  registry_state world_ab registry_ab /\
  exists all resumable_ones found : list SessionRegistryEntry,
    listAllSessions world_ab = Returns all /\
    listResumableSessions world_ab = Returns resumable_ones /\
    findSessionsByPrefix "b" world_ab = Returns found /\
    resumable_ones `sublist_of` all /\
    found `sublist_of` all.
Proof.
  split; [vm_compute; reflexivity|].
  apply (selections_are_sublists_of_listAllSessions world_ab registry_ab "b").
  vm_compute. reflexivity.
Defined.

Lemma startsWith_trans (id y x : string) :
  startsWith y x = true -> startsWith id y = true -> startsWith id x = true.
Proof.
  unfold startsWith. revert id y.
  induction x as [|c x IH]; intros id y Hyx Hidy; [by destruct id|].
  destruct y as [|c' y]; simpl in Hyx; [discriminate|].
  destruct (Ascii.ascii_dec c c') as [<-|]; [|discriminate].
  destruct id as [|c'' id]; simpl in *; [discriminate|].
  destruct (Ascii.ascii_dec c c''); [|discriminate].
  by apply (IH id y).
Qed.

(** A longer prefix narrows the search: when [x] is a prefix of [y], the
    sessions found for [y] are among those found for [x], in the same
    order. *)
Theorem findSessionsByPrefix_narrows (w : World) (r : SessionRegistry)
    (x y : string) :
  registry_state w r ->
  startsWith y x = true ->
  exists found_x found_y : list SessionRegistryEntry,
    findSessionsByPrefix x w = Returns found_x /\
    findSessionsByPrefix y w = Returns found_y /\
    found_y `sublist_of` found_x.
Proof.
  intros Hstate Hprefix. eexists _, _. split_and!.
  - by apply findSessionsByPrefix_loaded.
  - by apply findSessionsByPrefix_loaded.
  - apply fmap_sublist, filter_sublist_implied.
    intros [id entry]. by apply startsWith_trans.
Qed.

Lemma findSessionsByPrefix_narrows_witness :
  registry_state world_ab registry_ab /\
  startsWith "ab" "a" = true /\
  exists found_x found_y : list SessionRegistryEntry,
    findSessionsByPrefix "a" world_ab = Returns found_x /\
    findSessionsByPrefix "ab" world_ab = Returns found_y /\
    found_y `sublist_of` found_x.
Proof.
  split; [vm_compute; reflexivity|].
  split; [reflexivity|].
  apply (findSessionsByPrefix_narrows world_ab registry_ab "a" "ab");
    vm_compute; reflexivity.
Defined.

(** ** Cleanup-stale, run again and at its extremes *)

Lemma all_alive_no_stale (isAlive : string -> bool)
    (m : gmap string SessionRegistryEntry) :
  (forall id entry, m !! id = Some entry -> isAlive (cwd entry) = true) ->
  List.filter (stale isAlive) (Object_values m) = [].
Proof.
  intros Halive.
  destruct (List.filter _ _) as [|entry l] eqn:Hfilter; [reflexivity|].
  assert (In entry (List.filter (stale isAlive) (Object_values m)))
    as [Hin Hstale]%filter_In by (rewrite Hfilter; by left).
  apply list_elem_of_In, elem_of_Object_values in Hin as [id Hid].
  unfold stale in Hstale. by rewrite (Halive id entry Hid) in Hstale.
Qed.

(** Running cleanup-stale a second time with the same predicate removes
    nothing and does not write, whatever the first run did. *)
Theorem cleanup_twice_second_run_is_idle (w : World) (r : SessionRegistry)
    (isAlive : string -> bool) :
  registry_state w r ->
  exists (cleaned : nat) (w' : World),
    cleanupStaleRegistryEntries isAlive w = Returns (cleaned, w') /\
    cleanupStaleRegistryEntries isAlive w' = Returns (0, w').
Proof.
  intros Hstate.
  destruct (cleanupStaleRegistryEntries_loaded w r isAlive Hstate)
    as (w' & r' & Hrun & Hstate' & Hlookup & _).
  eexists _, w'. split; [exact Hrun|].
  assert (List.filter (stale isAlive) (Object_values (sessions r')) = [])
    as Hnone.
  { apply all_alive_no_stale. intros id entry Hid.
    rewrite Hlookup in Hid.
    destruct (sessions r !! id) as [entry'|]; [|discriminate].
    destruct (isAlive (cwd entry')) eqn:Halive; [|discriminate].
    by injection Hid as <-. }
  destruct (cleanupStaleRegistryEntries_loaded w' r' isAlive Hstate')
    as (w'' & r'' & Hagain & _ & _ & _ & Hsame & _).
  rewrite Hnone in Hagain, Hsame. simpl in Hagain, Hsame.
  by rewrite (Hsame eq_refl) in Hagain.
Qed.

Lemma cleanup_twice_second_run_is_idle_witness :
  registry_state world_ab registry_ab /\
  exists (cleaned : nat) (w' : World),
    cleanupStaleRegistryEntries (String.eqb "/y") world_ab
    = Returns (cleaned, w') /\
    cleanupStaleRegistryEntries (String.eqb "/y") w' = Returns (0, w').
Proof.
  split; [vm_compute; reflexivity|].
  apply (cleanup_twice_second_run_is_idle world_ab registry_ab
           (String.eqb "/y")).
  vm_compute. reflexivity.
Defined.

Lemma filter_keeps_all {A} (f : A -> bool) (l : list A) :
  (forall a, f a = true) -> List.filter f l = l.
Proof.
  intros Hall. induction l as [|a l IH]; simpl; [reflexivity|].
  by rewrite Hall, IH.
Qed.

(** At the extremes: with a predicate that accepts every [cwd],
    cleanup-stale returns [0] and leaves the world alone; with one that
    rejects every [cwd], it returns the number of entries and leaves an
    empty registry. *)
Theorem cleanup_keeps_all_or_nothing (w : World) (r : SessionRegistry) :
  registry_state w r ->
  cleanupStaleRegistryEntries (fun _ => true) w = Returns (0, w) /\
  exists w' : World,
    cleanupStaleRegistryEntries (fun _ => false) w
    = Returns (size (sessions r), w') /\
    registry_state w' empty_registry.
Proof.
  intros Hstate. split.
  - destruct (cleanupStaleRegistryEntries_loaded w r (fun _ => true) Hstate)
      as (w' & r' & Hrun & _ & _ & _ & Hsame & _).
    rewrite (all_alive_no_stale (fun _ => true)) in Hrun, Hsame by done.
    by rewrite (Hsame eq_refl) in Hrun.
  - destruct (cleanupStaleRegistryEntries_loaded w r (fun _ => false) Hstate)
      as (w' & r' & Hrun & Hstate' & Hlookup & _).
    rewrite (filter_keeps_all (stale (fun _ => false))) in Hrun by done.
    unfold Object_values, Object_entries in Hrun.
    rewrite length_fmap, length_map_to_list in Hrun.
    exists w'. split; [exact Hrun|].
    replace empty_registry with r'; [exact Hstate'|].
    destruct r' as [m]. unfold empty_registry. f_equal. simpl in *.
    apply map_empty. intros id. rewrite Hlookup.
    by destruct (sessions r !! id).
Qed.

Lemma cleanup_keeps_all_or_nothing_witness :
  registry_state world_ab registry_ab /\
  cleanupStaleRegistryEntries (fun _ => true) world_ab = Returns (0, world_ab) /\
  exists w' : World,
    cleanupStaleRegistryEntries (fun _ => false) world_ab
    = Returns (size (sessions registry_ab), w') /\
    registry_state w' empty_registry.
Proof.
  split; [vm_compute; reflexivity|].
  apply (cleanup_keeps_all_or_nothing world_ab registry_ab).
  vm_compute. reflexivity.
Defined.

(** ** The list of all sessions under register and unregister *)

(** Registering an entry under an id the registry does not have, other
    than ["__proto__"], adds that entry, once, to the list of all sessions
    and leaves the others in it. *)
Theorem register_fresh_extends_listAllSessions (w : World)
    (r : SessionRegistry) (entry : SessionRegistryEntry) :
  registry_state w r ->
  sessions r !! sessionId entry = None ->
  sessionId entry ≠ "__proto__" ->
  exists (w' : World) (before after : list SessionRegistryEntry),
    listAllSessions w = Returns before /\
    registerSession entry w = Returns w' /\
    listAllSessions w' = Returns after /\
    after ≡ₚ entry :: before.
Proof.
  intros Hstate Hfresh Hid. eexists _, _, _. split_and!.
  - by apply listAllSessions_loaded.
  - by apply registerSession_stores.
  - apply listAllSessions_loaded, registry_state_saveRegistry.
  - unfold Object_values, Object_entries. simpl.
    by rewrite (map_to_list_insert _ _ _ Hfresh).
Qed.

Lemma register_fresh_extends_listAllSessions_witness :
  registry_state world_ab registry_ab /\
  sessions registry_ab !! sessionId (sample_entry "c" "/x" paused) = None /\
  sessionId (sample_entry "c" "/x" paused) ≠ "__proto__" /\
  exists (w' : World) (before after : list SessionRegistryEntry),
    listAllSessions world_ab = Returns before /\
    registerSession (sample_entry "c" "/x" paused) world_ab = Returns w' /\
    listAllSessions w' = Returns after /\
    after ≡ₚ sample_entry "c" "/x" paused :: before.
Proof.
  split; [vm_compute; reflexivity|].
  split; [vm_compute; reflexivity|].
  split; [discriminate|].
  apply (register_fresh_extends_listAllSessions world_ab registry_ab
           (sample_entry "c" "/x" paused));
    [vm_compute; reflexivity | vm_compute; reflexivity | discriminate].
Defined.

(** Unregistering an id takes its entry, once, out of the list of all
    sessions and leaves the others in it; unregistering an id the registry
    does not have leaves the list as it was. *)
Theorem unregister_shrinks_listAllSessions (w : World) (r : SessionRegistry)
    (id : string) :
  registry_state w r ->
  exists (w' : World) (before after : list SessionRegistryEntry),
    listAllSessions w = Returns before /\
    unregisterSession id w = Returns w' /\
    listAllSessions w' = Returns after /\
    (forall entry, sessions r !! id = Some entry -> before ≡ₚ entry :: after) /\
    (sessions r !! id = None -> after = before).
Proof.
  intros Hstate. eexists _, _, _. split_and!.
  - by apply listAllSessions_loaded.
  - by apply unregisterSession_loaded.
  - apply listAllSessions_loaded, registry_state_saveRegistry.
  - intros entry Hid. unfold Object_values, Object_entries. simpl.
    by rewrite <- (map_to_list_delete _ _ _ Hid).
  - intros Hid. simpl. by rewrite delete_id.
Qed.

Lemma unregister_shrinks_listAllSessions_witness :
  registry_state world_ab registry_ab /\
  exists (w' : World) (before after : list SessionRegistryEntry),
    listAllSessions world_ab = Returns before /\
    unregisterSession "a" world_ab = Returns w' /\
    listAllSessions w' = Returns after /\
    (forall entry, sessions registry_ab !! "a" = Some entry ->
                   before ≡ₚ entry :: after) /\
    (sessions registry_ab !! "a" = None -> after = before).
Proof.
  split; [vm_compute; reflexivity|].
  apply (unregister_shrinks_listAllSessions world_ab registry_ab "a").
  vm_compute. reflexivity.
Defined.

(** ** Status updates and the resumable sessions *)

(** After update-status on a known id, the entry stored under that id is
    among the resumable sessions exactly when the new status is running,
    paused or interrupted. *)
Theorem updated_entry_is_listed_iff_resumable (w : World)
    (r : SessionRegistry) (id : string) (st : SessionStatus) (now : string) :
  registry_state w r ->
  is_Some (sessions r !! id) ->
  exists (w' : World) (entry' : SessionRegistryEntry)
         (listed : list SessionRegistryEntry),
    updateRegistryStatus id st now w = Returns w' /\
    getSessionById id w' = Returns (Own entry') /\
    listResumableSessions w' = Returns listed /\
    (entry' ∈ listed <-> resumable st).
Proof.
  intros Hstate [entry Hid].
  set (r' := {| sessions := <[id := set_status entry st now]> (sessions r) |}).
  assert (registry_state (saveRegistry r' w) r') as Hstate'
    by apply registry_state_saveRegistry.
  exists (saveRegistry r' w), (set_status entry st now). eexists.
  split_and!.
  - by apply updateRegistryStatus_present.
  - rewrite (getSessionById_loaded _ _ Hstate'). simpl.
    f_equal. apply get_member_own, lookup_insert_eq.
  - by apply listResumableSessions_loaded.
  - rewrite list_elem_of_In, filter_In, <- list_elem_of_In.
    rewrite includes_resumableStatuses. simpl. split; [by intros [_ ?]|].
    intros Hres. split; [|done].
    apply elem_of_Object_values. exists id. simpl. apply lookup_insert_eq.
Qed.

Lemma updated_entry_is_listed_iff_resumable_witness :
  registry_state world_ab registry_ab /\
  is_Some (sessions registry_ab !! "a") /\
  exists (w' : World) (entry' : SessionRegistryEntry)
         (listed : list SessionRegistryEntry),
    updateRegistryStatus "a" failed "2025-06-01T12:00:00.000Z" world_ab
    = Returns w' /\
    getSessionById "a" w' = Returns (Own entry') /\
    listResumableSessions w' = Returns listed /\
    (entry' ∈ listed <-> resumable failed).
Proof.
  assert (is_Some (sessions registry_ab !! "a")) as Hid
    by (exists entry_a; vm_compute; reflexivity).
  split; [vm_compute; reflexivity|].
  split; [exact Hid|].
  apply (updated_entry_is_listed_iff_resumable world_ab registry_ab "a"
           failed "2025-06-01T12:00:00.000Z"); [|exact Hid].
  vm_compute. reflexivity.
Defined.

(** Of two status updates of the same id in a row only the second shows:
    the registry file afterwards is the one the second update alone would
    have written. *)
Theorem updateRegistryStatus_last_wins (w : World) (r : SessionRegistry)
    (id : string) (st1 st2 : SessionStatus) (now1 now2 : string) :
  registry_state w r ->
  is_Some (sessions r !! id) ->
  exists w1 w12 w2 : World,
    updateRegistryStatus id st1 now1 w = Returns w1 /\
    updateRegistryStatus id st2 now2 w1 = Returns w12 /\
    updateRegistryStatus id st2 now2 w = Returns w2 /\
    registry_file w12 = registry_file w2.
Proof.
  intros Hstate [entry Hid].
  set (r1 := {| sessions := <[id := set_status entry st1 now1]> (sessions r) |}).
  eexists _, _, _. split_and!.
  - by apply updateRegistryStatus_present.
  - apply (updateRegistryStatus_present _ r1 (registry_state_saveRegistry r1 w)
             id st2 now2 (set_status entry st1 now1)).
    apply lookup_insert_eq.
  - by apply updateRegistryStatus_present.
  - simpl. by rewrite insert_insert_eq.
Qed.

Lemma updateRegistryStatus_last_wins_witness :
  registry_state world_ab registry_ab /\
  is_Some (sessions registry_ab !! "a") /\
  exists w1 w12 w2 : World,
    updateRegistryStatus "a" paused "2025-06-01T12:00:00.000Z" world_ab
    = Returns w1 /\
    updateRegistryStatus "a" failed "2025-06-02T12:00:00.000Z" w1
    = Returns w12 /\
    updateRegistryStatus "a" failed "2025-06-02T12:00:00.000Z" world_ab
    = Returns w2 /\
    registry_file w12 = registry_file w2.
Proof.
  assert (is_Some (sessions registry_ab !! "a")) as Hid
    by (exists entry_a; vm_compute; reflexivity).
  split; [vm_compute; reflexivity|].
  split; [exact Hid|].
  apply (updateRegistryStatus_last_wins world_ab registry_ab "a" paused failed
           "2025-06-01T12:00:00.000Z" "2025-06-02T12:00:00.000Z");
    [|exact Hid].
  vm_compute. reflexivity.
Defined.

(** ** What the notifier leaves on the console *)

Lemma notify_callbacks_console (errs : list (option string))
    (console : list string) :
  fold_left (fun c err => Notifications.notify_callback err c) errs console
  = console ++ (Notifications.failure_warning <$> callback_errors errs).
Proof.
  revert console. induction errs as [|[message|] errs IH]; intros console.
  - by rewrite app_nil_r.
  - simpl. rewrite IH. unfold Notifications.console_warn.
    by rewrite <- app_assoc.
  - simpl. apply IH.
Qed.

(** [sendNotification] asks the notifier with the title, the body as
    message, the icon and the sound off.  When the notifier throws, one
    warning with the message of what was thrown is printed; when it calls
    back, one warning is printed per callback that carries an error, with
    that error's message and in the order of the calls, and nothing for a
    callback without error. *)
Theorem sendNotification_console (notifier : Notifications.Notifier)
    (options : Notifications.NotificationOptions) (console : list string) :
  Notifications.sendNotification notifier options console
  = match notifier {| Notifications.req_title := Notifications.title options;
                      Notifications.req_message := Notifications.body options;
                      Notifications.req_icon := Notifications.icon options;
                      Notifications.req_sound := false |} with
    | Notifications.NotifyThrows t =>
        (console ++ [Notifications.failure_warning
                       (Notifications.thrown_message t)], None)
    | Notifications.NotifyCalls errs =>
        (console ++ (Notifications.failure_warning <$> callback_errors errs),
         None)
    end.
Proof.
  unfold Notifications.sendNotification, Notifications.notify.
  destruct (notifier _) as [t|errs]; [reflexivity|].
  by rewrite notify_callbacks_console.
Qed.

(** ** Where update-status writes and where register stores *)

(** [updateRegistryStatus] writes exactly when [registry.sessions[id]] is
    truthy: when the registry has no entry under [id] and [id] names no
    property of [Object.prototype], the call returns with the world as it
    was; when the registry has one, or [id] names such a property, the call
    returns after one write. *)
Theorem updateRegistryStatus_writes_when_found (w : World)
    (r : SessionRegistry) (id : string) (st : SessionStatus) (now : string) :
  registry_state w r ->
  exists w' : World,
    updateRegistryStatus id st now w = Returns w' /\
    (sessions r !! id = None -> inherited id = false -> w' = w) /\
    (is_Some (sessions r !! id) \/ inherited id = true ->
     writes w' = S (writes w)).
Proof.
  intros Hstate. destruct (sessions r !! id) as [entry|] eqn:Hid;
    [|destruct (inherited id) eqn:Hname].
  - eexists. split; [by apply updateRegistryStatus_present|].
    split; [done|]. intros _. apply writes_saveRegistry.
  - eexists. split; [by apply updateRegistryStatus_inherited|].
    split; [done|]. intros _. apply writes_saveRegistry.
  - exists w. split; [by apply (updateRegistryStatus_absent w r)|].
    split; [done|]. intros [[entry Hentry]|Hname']; congruence.
Qed.

Lemma updateRegistryStatus_writes_when_found_witness :
  registry_state world_ab registry_ab /\
  exists w' : World,
    updateRegistryStatus "c" paused "2025-06-01T12:00:00.000Z" world_ab
    = Returns w' /\
    (sessions registry_ab !! "c" = None -> inherited "c" = false ->
     w' = world_ab) /\
    (is_Some (sessions registry_ab !! "c") \/ inherited "c" = true ->
     writes w' = S (writes world_ab)).
Proof.
  split; [vm_compute; reflexivity|].
  apply (updateRegistryStatus_writes_when_found world_ab registry_ab "c"
           paused "2025-06-01T12:00:00.000Z").
  vm_compute. reflexivity.
Defined.

(** For entries [e] and [e'] with the same session id, other than
    ["__proto__"], registering [e] and then [e'] succeeds whatever their
    [cwd]s are, and the registry then on disk is the initial one with [e']
    stored under that id: the id maps to [e'] itself, it occurs once among
    the entries, and every other id is as before. *)
Theorem register_twice_keeps_the_last (w : World) (r : SessionRegistry)
    (e e' : SessionRegistryEntry) :
  registry_state w r ->
  sessionId e' = sessionId e ->
  sessionId e ≠ "__proto__" ->
  exists (w1 w2 : World) (r2 : SessionRegistry),
    registerSession e w = Returns w1 /\
    registerSession e' w1 = Returns w2 /\
    registry_state w2 r2 /\
    sessions r2 = <[sessionId e := e']> (sessions r) /\
    sessions r2 !! sessionId e = Some e' /\
    length (List.filter (fun kv => String.eqb kv.1 (sessionId e))
                        (Object_entries (sessions r2))) = 1 /\
    (forall id, id ≠ sessionId e -> sessions r2 !! id = sessions r !! id).
Proof.
  intros Hstate Hid Hname.
  set (r1 := {| sessions := <[sessionId e := e]> (sessions r) |}).
  set (r2 := {| sessions := <[sessionId e' := e']> (sessions r1) |}).
  exists (saveRegistry r1 w), (saveRegistry r2 (saveRegistry r1 w)), r2.
  assert (sessions r2 = <[sessionId e := e']> (sessions r)) as Hr2.
  { unfold r2, r1; simpl. rewrite Hid. apply insert_insert_eq. }
  split_and!.
  - by apply registerSession_stores.
  - apply registerSession_stores; [apply registry_state_saveRegistry|].
    by rewrite Hid.
  - apply registry_state_saveRegistry.
  - exact Hr2.
  - rewrite Hr2. apply lookup_insert_eq.
  - apply key_present_count; [apply NoDup_fst_map_to_list|].
    apply list_elem_of_fmap. exists (sessionId e, e'). split; [done|].
    apply elem_of_map_to_list. rewrite Hr2. apply lookup_insert_eq.
  - intros id Hne. rewrite Hr2. by apply lookup_insert_ne.
Qed.

Lemma register_twice_keeps_the_last_witness :
  registry_state world_ab registry_ab /\
  sessionId (sample_entry "a" "/y" failed) = sessionId entry_a /\
  sessionId entry_a ≠ "__proto__" /\
  exists (w1 w2 : World) (r2 : SessionRegistry),
    registerSession entry_a world_ab = Returns w1 /\
    registerSession (sample_entry "a" "/y" failed) w1 = Returns w2 /\
    registry_state w2 r2 /\
    sessions r2
    = <[sessionId entry_a := sample_entry "a" "/y" failed]>
        (sessions registry_ab) /\
    sessions r2 !! sessionId entry_a = Some (sample_entry "a" "/y" failed) /\
    length (List.filter (fun kv => String.eqb kv.1 (sessionId entry_a))
                        (Object_entries (sessions r2))) = 1 /\
    (forall id, id ≠ sessionId entry_a ->
                sessions r2 !! id = sessions registry_ab !! id).
Proof.
  split; [vm_compute; reflexivity|].
  split; [reflexivity|].
  split; [discriminate|].
  apply (register_twice_keeps_the_last world_ab registry_ab entry_a
           (sample_entry "a" "/y" failed));
    [vm_compute; reflexivity | reflexivity | discriminate].
Defined.
